(** * WaymoEnv: per-step episode evaluation of metadrive's scenario replay

    A shallow embedding of [metadrive/envs/real_data_envs/waymo_env.py]:
    the done, cost and reward evaluators of [WaymoEnv], their two
    predicates [_is_arrive_destination] and [_is_out_of_road], and the
    scenario selector [_reset_global_seed].

    Numbers.  Python floats are modelled as exact rationals [Q]; the
    properties below are about thresholds, priorities and the state that
    is read and written, and none depends on rounding.  Integers (seeds,
    step counters, array indices) are [Z], with Python's negative array
    indices written out.

    Effects.  The methods read and write the environment object, log and
    may raise; they are embedded in a state-and-exception monad over the
    record [Env]. *)

From Stdlib Require Import QArith Qabs Lqa.
From stdpp Require Import gmap strings list fin_maps.

Open Scope Z_scope.

(** ** Numbers *)

(** [x < y] on floats, as a boolean. *)
Definition Qltb (x y : Q) : bool := negb (Qle_bool y x).

(** ** Exceptions and the evaluation monad *)

Inductive exn : Set :=
| KeyError
| IndexError
| ValueError
| TypeError
| ZeroDivisionError
| AssertionError.

Inductive result (A : Type) : Type :=
| Ok (a : A)
| Raise (e : exn).
Arguments Ok {A} a.
Arguments Raise {A} e.

(** Python's [x / y] on floats. *)
Definition py_div (x y : Q) : result Q :=
  if Qeq_bool y 0 then Raise ZeroDivisionError else Ok (x / y)%Q.

(** [d[k]] on a dict. *)
Definition dict_get {K} `{Countable K} {V} (d : gmap K V) (k : K) : result V :=
  match d !! k with
  | Some v => Ok v
  | None => Raise KeyError
  end.

(** [a[i]] on a sequence, with Python's negative indices. *)
Definition py_index {A} (a : list A) (i : Z) : result A :=
  let n := Z.of_nat (length a) in
  if (0 <=? i) && (i <? n) then
    match a !! Z.to_nat i with Some x => Ok x | None => Raise IndexError end
  else if (- n <=? i) && (i <? 0) then
    match a !! Z.to_nat (i + n) with Some x => Ok x | None => Raise IndexError end
  else Raise IndexError.

(** ** Data model *)

Definition Point : Type := Q * Q.

(** A lane, and likewise the reference trajectory and the route: an object
    with [local_coordinates] and [length], built outside this file.
    [lane_id] stands for the object's identity. *)
Record Lane : Type := {
  lane_id : nat;
  local_coordinates : Point -> Q * Q;
  length : Q
}.

Record Navigation : Type := {
  reference_trajectory : Lane;
  current_ref_lanes : list Lane
}.

Record Vehicle : Type := {
  name : string;
  position : Point;
  last_position : Point;
  lane : Lane;
  navigation : Navigation;
  crash_vehicle : bool;
  crash_object : bool;
  crash_building : bool;
  crash_sidewalk : bool;
  on_yellow_continuous_line : bool;
  on_white_continuous_line : bool;
  WIDTH : Q;
  LENGTH : Q;
  _dynamics_mode : option string
}.

(** The options of [WAYMO_ENV_CONFIG] read by the evaluators. *)
Record Config : Type := {
  start_scenario_index : Z;
  num_scenario : Z;
  sequential_seed : bool;
  success_reward : Q;
  out_of_road_penalty : Q;
  crash_vehicle_penalty : Q;
  crash_object_penalty : Q;
  driving_reward : Q;
  use_lateral_reward : bool;
  crash_vehicle_cost : Q;
  crash_object_cost : Q;
  out_of_road_cost : Q;
  out_of_route_done : bool;
  crash_vehicle_done : bool;
  relax_out_of_road_done : bool;
  coordinate_transform : bool
}.

(** [data["tracks"][id]["state"]]: the logged positions (x, y, z) and the
    validity mask. *)
Record TrackState : Type := {
  st_position : list (Q * Q * Q);
  st_valid : list bool
}.

(** A track is a dict; [EmptyTrack] is the dict of length 0. *)
Inductive Track : Type :=
| EmptyTrack
| TrackOf (state : TrackState).

Record Scenario : Type := {
  sdc_id : string;
  tracks : gmap string Track
}.

Record Observation : Type := {
  lateral_dist : Q
}.

(** The environment object: configuration, agents, the engine's managers
    and counters, and the log written by [logging.info]. *)
Record Env : Type := {
  config : Config;
  vehicles : gmap string Vehicle;
  observations : gmap string Observation;
  agent_manager : gmap string string;
  current_sdc_route : Lane;
  data_manager : gmap Z Scenario;
  global_seed : option Z;
  episode_step : Z;
  log : list string
}.

Definition set_observations (o : gmap string Observation) (s : Env) : Env :=
  {| config := config s; vehicles := vehicles s; observations := o;
     agent_manager := agent_manager s; current_sdc_route := current_sdc_route s;
     data_manager := data_manager s; global_seed := global_seed s;
     episode_step := episode_step s; log := log s |}.

Definition set_global_seed (g : option Z) (s : Env) : Env :=
  {| config := config s; vehicles := vehicles s; observations := observations s;
     agent_manager := agent_manager s; current_sdc_route := current_sdc_route s;
     data_manager := data_manager s; global_seed := g;
     episode_step := episode_step s; log := log s |}.

Definition set_log (l : list string) (s : Env) : Env :=
  {| config := config s; vehicles := vehicles s; observations := observations s;
     agent_manager := agent_manager s; current_sdc_route := current_sdc_route s;
     data_manager := data_manager s; global_seed := global_seed s;
     episode_step := episode_step s; log := l |}.

(** The monad: a method takes the environment and returns a value and the
    environment, or raises. *)
Definition M (A : Type) : Type := Env -> result (A * Env).

Definition ret {A} (a : A) : M A := fun s => Ok (a, s).

Definition bind {A B} (m : M A) (k : A -> M B) : M B :=
  fun s => match m s with
           | Ok (a, s') => k a s'
           | Raise e => Raise e
           end.

Definition raise {A} (e : exn) : M A := fun _ => Raise e.

Definition lift {A} (r : result A) : M A :=
  fun s => match r with Ok a => Ok (a, s) | Raise e => Raise e end.

Definition gets {A} (f : Env -> A) : M A := fun s => Ok (f s, s).

Definition modify (f : Env -> Env) : M unit := fun s => Ok (tt, f s).

Notation "'let*' x := m 'in' k" := (bind m (fun x => k))
  (at level 10, x name, m at level 100, k at level 200, only parsing).
Notation "'let*' ' p := m 'in' k" := (bind m (fun p => k))
  (at level 10, p pattern, m at level 100, k at level 200, only parsing).

(** [logging.info(msg)]. *)
Definition logging_info (msg : string) : M unit :=
  modify (fun s => set_log (log s ++ [msg]) s).

(** ** Collaborators that are not part of this file *)

(** Modelled from the spec: [metadrive.constants.TerminationState] is not
    part of this file; the spec names the termination reasons arrive_dest,
    out_of_road, crash_vehicle, crash_object, crash_building and crash. *)
Module TerminationState.
Definition SUCCESS : string := "arrive_dest".
Definition OUT_OF_ROAD : string := "out_of_road".
Definition CRASH_VEHICLE : string := "crash_vehicle".
Definition CRASH_OBJECT : string := "crash_object".
Definition CRASH_BUILDING : string := "crash_building".
Definition CRASH : string := "crash".
End TerminationState.

(** [self.vehicles[vehicle_id]]. *)
Definition get_vehicle (vehicle_id : string) : M Vehicle :=
  let* vs := gets vehicles in lift (dict_get vs vehicle_id).

(** [self.agent_manager.object_to_agent(name)].  The agent manager is not
    part of this file; its table from object names to agent ids is part of
    the environment, and a name it does not know raises. *)
Definition object_to_agent (obj_name : string) : M string :=
  let* am := gets agent_manager in lift (dict_get am obj_name).

(** [self.observations[agent_name].lateral_dist]. *)
Definition read_lateral_dist (agent_name : string) : M Q :=
  let* obs := gets observations in
  let* o := lift (dict_get obs agent_name) in
  ret (lateral_dist o).

(** [self.observations[vehicle_id].lateral_dist = x]. *)
Definition write_lateral_dist (vehicle_id : string) (x : Q) : M unit :=
  let* obs := gets observations in
  let* _ := lift (dict_get obs vehicle_id) in
  modify (set_observations (<[vehicle_id := {| lateral_dist := x |}]> obs)).

(** [self.engine.data_manager.get_scenario(self.engine.global_seed)].
    Modelled from the spec: the data manager is not part of this file; it
    provides the scenario record of a seed, read-only during the episode. *)
Definition get_scenario : M Scenario :=
  let* g := gets global_seed in
  match g with
  | None => raise TypeError
  | Some i => let* dm := gets data_manager in lift (dict_get dm i)
  end.

(** ** The two predicates *)

(** The test of line 309, [route_completion > 0.95]. *)
Definition arrival_threshold_check (route_completion : Q) : bool :=
  Qltb (95 # 100) route_completion.

(** The second disjunct of line 166, [route_completion > 1.0]. *)
Definition done_inline_arrival_check (route_completion : Q) : bool :=
  Qltb 1 route_completion.

(** The second disjunct of line 170, [route_completion < -0.1]. *)
Definition done_inline_off_route_check (route_completion : Q) : bool :=
  Qltb route_completion (- (1 # 10)).

Definition _is_arrive_destination (vehicle : Vehicle) : M bool :=
  let '(long, lat) :=
    local_coordinates (reference_trajectory (navigation vehicle)) (position vehicle) in
  let total_length := length (reference_trajectory (navigation vehicle)) in
  let current_distance := long in
  let* route_completion := lift (py_div current_distance total_length) in
  if arrival_threshold_check route_completion then ret true else ret false.

Definition _is_out_of_road (vehicle : Vehicle) : M bool :=
  let* cfg := gets config in
  if relax_out_of_road_done cfg then
    let* agent_name := object_to_agent (name vehicle) in
    let* d := read_lateral_dist agent_name in
    let lat := Qabs d in
    let done := Qltb 10 lat in
    let done := done || on_yellow_continuous_line vehicle || crash_sidewalk vehicle in
    ret done
  else
    let done := crash_sidewalk vehicle || on_yellow_continuous_line vehicle
                || on_white_continuous_line vehicle in
    if out_of_route_done cfg then
      let* agent_name := object_to_agent (name vehicle) in
      if done then ret true
      else let* d := read_lateral_dist agent_name in ret (Qltb 10 (Qabs d))
    else ret done.

(** ** Termination *)

Definition done_function (vehicle_id : string) : M (bool * gmap string bool) :=
  let* vehicle := get_vehicle vehicle_id in
  let done := false in
  let done_info : gmap string bool :=
    <["crash_vehicle" := false]> (<["crash_object" := false]> (<["crash_building" := false]>
      (<["out_of_road" := false]> (<["arrive_dest" := false]> ∅)))) in
  let '(long, lat) :=
    local_coordinates (reference_trajectory (navigation vehicle)) (position vehicle) in
  let total_length := length (reference_trajectory (navigation vehicle)) in
  let current_distance := long in
  let* route_completion := lift (py_div current_distance total_length) in
  let* a := _is_arrive_destination vehicle in
  let* '(done, done_info) :=
    (if a || done_inline_arrival_check route_completion then
       let* _ := logging_info "Episode ended! Reason: arrive_dest." in
       ret (true, <[TerminationState.SUCCESS := true]> done_info)
     else ret (done, done_info)) in
  let* o := _is_out_of_road vehicle in
  let* '(done, done_info) :=
    (if o || done_inline_off_route_check route_completion then
       let* _ := logging_info "Episode ended! Reason: out_of_road." in
       ret (true, <[TerminationState.OUT_OF_ROAD := true]> done_info)
     else ret (done, done_info)) in
  let* cfg := gets config in
  let* '(done, done_info) :=
    (if crash_vehicle vehicle && crash_vehicle_done cfg then
       let* _ := logging_info "Episode ended! Reason: crash vehicle " in
       ret (true, <[TerminationState.CRASH_VEHICLE := true]> done_info)
     else ret (done, done_info)) in
  let* '(done, done_info) :=
    (if crash_object vehicle then
       let* _ := logging_info "Episode ended! Reason: crash object " in
       ret (true, <[TerminationState.CRASH_OBJECT := true]> done_info)
     else ret (done, done_info)) in
  let* '(done, done_info) :=
    (if crash_building vehicle then
       let* _ := logging_info "Episode ended! Reason: crash building " in
       ret (true, <[TerminationState.CRASH_BUILDING := true]> done_info)
     else ret (done, done_info)) in
  let* cv := lift (dict_get done_info TerminationState.CRASH_VEHICLE) in
  let* crash := (if cv then ret true
            else let* co := lift (dict_get done_info TerminationState.CRASH_OBJECT) in
                 if co then ret true
                 else lift (dict_get done_info TerminationState.CRASH_BUILDING)) in
  let done_info := <[TerminationState.CRASH := crash]> done_info in
  ret (done, done_info).

(** ** Cost *)

Definition cost_function (vehicle_id : string) : M (Q * gmap string Q) :=
  let* vehicle := get_vehicle vehicle_id in
  let step_info : gmap string Q := ∅ in
  let step_info := <["cost" := 0%Q]> step_info in
  let* o := _is_out_of_road vehicle in
  let* cfg := gets config in
  let step_info :=
    if o then <["cost" := out_of_road_cost cfg]> step_info
    else if crash_vehicle vehicle then <["cost" := crash_vehicle_cost cfg]> step_info
    else if crash_object vehicle then <["cost" := crash_object_cost cfg]> step_info
    else step_info in
  let* c := lift (dict_get step_info "cost") in
  ret (c, step_info).

(** ** Expert-state lookup (lines 266-277 of [reward_function]) *)

(** [np.where(mask == True)[0]]: the indices of the valid frames, in
    increasing order. *)
Fixpoint np_where_from (i : Z) (mask : list bool) : list Z :=
  match mask with
  | [] => []
  | b :: mask' => (if b then [i] else []) ++ np_where_from (i + 1) mask'
  end.

Definition np_where (mask : list bool) : list Z := np_where_from 0 mask.

(** [np.max(a)]: raises on an empty array. *)
Definition np_max (a : list Z) : result Z :=
  match a with
  | [] => Raise ValueError
  | x :: a' => Ok (foldr Z.max x a')
  end.

(** The loop [while mask[current_step] == 0.0: current_step -= 1;
    if current_step == 0: break], with a bound on the number of
    iterations; [None] when the bound is used up. *)
Fixpoint walk_back (fuel : nat) (mask : list bool) (current_step : Z)
  : option (result Z) :=
  match fuel with
  | O => None
  | S fuel' =>
      match py_index mask current_step with
      | Raise e => Some (Raise e)
      | Ok true => Some (Ok current_step)
      | Ok false =>
          let current_step := current_step - 1 in
          if current_step =? 0 then Some (Ok current_step)
          else walk_back fuel' mask current_step
      end
  end.

(** Iterations that always suffice: the index only decreases, and the mask
    lookup raises below [- len(mask)]. *)
Definition walk_back_fuel (mask : list bool) (current_step : Z) : nat :=
  S (S (Z.to_nat (current_step + Z.of_nat (List.length mask)))).

(** Lines 269-272: the step is clamped to the last valid frame. *)
Definition clamp_step (largest_valid_index episode_step : Z) : Z :=
  if largest_valid_index <? episode_step then largest_valid_index
  else episode_step.

(** Lines 274-277, run to completion.  The last branch is not reached,
    see [walk_back_terminates]. *)
Definition walk_back_loop (mask : list bool) (current_step : Z) : result Z :=
  match walk_back (walk_back_fuel mask current_step) mask current_step with
  | Some r => r
  | None => Raise IndexError
  end.

(** Lines 266-277 together: the index at which the expert position is
    read, from the mask and the episode step. *)
Definition expert_current_step (mask : list bool) (episode_step : Z) : result Z :=
  match np_max (np_where mask) with
  | Raise e => Raise e
  | Ok largest_valid_index =>
      walk_back_loop mask (clamp_step largest_valid_index episode_step)
  end.

(** The values stored in [step_info]. *)
Inductive value : Type :=
| VFloat (x : Q)
| VList (l : list Q)
| VStr (s : string).

(** [p[:2]] on a logged position. *)
Definition xy (p : Q * Q * Q) : Point := (fst (fst p), snd (fst p)).

Definition vsub (a b : Point) : Point := ((fst a - fst b)%Q, (snd a - snd b)%Q).

(** [lane in lanes], by object identity. *)
Definition lane_in (l : Lane) (lanes : list Lane) : bool :=
  existsb (fun l' => Nat.eqb (lane_id l') (lane_id l)) lanes.

(** Lines 258-261: the track of the agent in the scenario record. *)
Definition native_vid (vehicle_id : string) (data : Scenario) : string :=
  if String.eqb vehicle_id "sdc" || String.eqb vehicle_id "default_agent"
  then sdc_id data else vehicle_id.

Section Evaluators.

(** Library and repository functions called by the file and defined
    elsewhere: [np.linalg.norm] on a 2-vector, [waymo_to_metadrive_vector],
    [metadrive.utils.clip], and the draw [get_np_random(None).randint]. *)
Variable norm : Point -> Q.
Variable waymo_to_metadrive_vector : Point -> Point.
Variable clip : Q -> Q -> Q -> Q.
Variable randint : Z -> Z -> result Z.

(** Lines 263-292: the two distances to the expert log. *)
Definition expert_diagnostics (data : Scenario) (native_vid : string)
    (agent_xy : Point) (step_info : gmap string value)
  : M (gmap string value) :=
  match tracks data !! native_vid with
  | Some (TrackOf expert_state_list) =>
      let mask := st_valid expert_state_list in
      let* largest_valid_index := lift (np_max (np_where mask)) in
      let* episode_step := gets episode_step in
      let current_step := clamp_step largest_valid_index episode_step in
      let* current_step := lift (walk_back_loop mask current_step) in
      let* transform := gets (fun s => coordinate_transform (config s)) in
      let* p := lift (py_index (st_position expert_state_list) current_step) in
      let expert_xy := if transform then waymo_to_metadrive_vector (xy p) else xy p in
      let dist := norm (vsub agent_xy expert_xy) in
      let step_info := <["distance_error" := VFloat dist]> step_info in
      let* last_state :=
        lift (py_index (st_position expert_state_list) largest_valid_index) in
      let last_expert_xy :=
        if transform then waymo_to_metadrive_vector (xy last_state)
        else xy last_state in
      let last_dist := norm (vsub agent_xy last_expert_xy) in
      ret (<["distance_error_final" := VFloat last_dist]> step_info)
  | _ => ret step_info
  end.

Definition reward_function (vehicle_id : string) : M (Q * gmap string value) :=
  let* vehicle := get_vehicle vehicle_id in
  let step_info : gmap string value := ∅ in
  let* current_lane :=
    (if lane_in (lane vehicle) (current_ref_lanes (navigation vehicle))
     then ret (lane vehicle)
     else lift (py_index (current_ref_lanes (navigation vehicle)) 0)) in
  let '(long_last, _) := local_coordinates current_lane (last_position vehicle) in
  let '(long_now, lateral_now) := local_coordinates current_lane (position vehicle) in
  let* route := gets current_sdc_route in
  let* _ := write_lateral_dist vehicle_id
              (snd (local_coordinates route (position vehicle))) in
  let* cfg := gets config in
  let lateral_factor :=
    if use_lateral_reward cfg
    then clip (1 - 2 * Qabs lateral_now / 6)%Q 0%Q 1%Q
    else 1%Q in
  let reward := 0%Q in
  let reward :=
    (reward + driving_reward cfg * (long_now - long_last) * lateral_factor)%Q in
  let step_info := <["step_reward" := VFloat reward]> step_info in
  let* a := _is_arrive_destination vehicle in
  let* reward :=
    (if a then ret (success_reward cfg)
     else
       let* o := _is_out_of_road vehicle in
       if o then ret (- out_of_road_penalty cfg)%Q
       else if crash_vehicle vehicle then ret (- crash_vehicle_penalty cfg)%Q
       else if crash_object vehicle then ret (- crash_object_penalty cfg)%Q
       else ret reward) in
  let track_length := length (reference_trajectory (navigation vehicle)) in
  let step_info := <["track_length" := VFloat track_length]> step_info in
  let current_distance :=
    fst (local_coordinates (reference_trajectory (navigation vehicle))
           (position vehicle)) in
  let step_info := <["current_distance" := VFloat current_distance]> step_info in
  let* rc := lift (py_div current_distance track_length) in
  let step_info := <["route_completion" := VFloat rc]> step_info in
  let step_info :=
    <["carsize" := VList [WIDTH vehicle; LENGTH vehicle]]> step_info in
  let* data := get_scenario in
  let agent_xy := position vehicle in
  let native_vid := native_vid vehicle_id data in
  let* step_info := expert_diagnostics data native_vid agent_xy step_info in
  let step_info :=
    match _dynamics_mode vehicle with
    | Some m => <["dynamics_mode" := VStr m]> step_info
    | None => step_info
    end in
  ret (reward, step_info).

(** Modelled from the spec: [self.seed] is inherited from [BaseEnv], which
    is not part of this file; the selected seed becomes the current
    scenario seed of the episode state, read back as
    [self.engine.global_seed]. *)
Definition seed (current_seed : Z) : M unit :=
  modify (set_global_seed (Some current_seed)).

Definition _reset_global_seed (force_seed : option Z) : M unit :=
  let* cfg := gets config in
  let* current_seed :=
    match force_seed with
    | Some f => ret f
    | None =>
        if sequential_seed cfg then
          let* current_seed := gets global_seed in
          let current_seed :=
            match current_seed with
            | None => start_scenario_index cfg
            | Some c => c + 1
            end in
          if start_scenario_index cfg + num_scenario cfg <=? current_seed
          then ret (start_scenario_index cfg)
          else ret current_seed
        else
          lift (randint (start_scenario_index cfg)
                  (start_scenario_index cfg + num_scenario cfg))
    end in
  if (start_scenario_index cfg <=? current_seed)
     && (current_seed <? start_scenario_index cfg + num_scenario cfg)
  then seed current_seed
  else raise AssertionError.

End Evaluators.

(** ** Quantities used to state the properties *)

(** [route_completion] as lines 157-162 and 303-308 compute it. *)
Definition route_completion_of (v : Vehicle) : Q :=
  (fst (local_coordinates (reference_trajectory (navigation v)) (position v))
   / length (reference_trajectory (navigation v)))%Q.

(** The vehicle [v] is the agent [vehicle_id], its trajectory has a length,
    and the agent manager and the observations know it: [a] is its agent
    name and [o] its observation. *)
Definition agent_ready (s : Env) (vehicle_id : string) (v : Vehicle)
    (a : string) (o : Observation) : Prop :=
  vehicles s !! vehicle_id = Some v
  /\ Qeq_bool (length (reference_trajectory (navigation v))) 0 = false
  /\ agent_manager s !! name v = Some a
  /\ observations s !! a = Some o.

(** What [_is_out_of_road] decides from the configuration, the cached
    lateral distance [d] and the vehicle's flags. *)
Definition out_of_road_decision (cfg : Config) (d : Q) (v : Vehicle) : bool :=
  if relax_out_of_road_done cfg then
    Qltb 10 (Qabs d) || on_yellow_continuous_line v || crash_sidewalk v
  else
    (crash_sidewalk v || on_yellow_continuous_line v || on_white_continuous_line v)
    || (out_of_route_done cfg && Qltb 10 (Qabs d)).

(** The state after a test of [done_function] that logs [msg] when [c]
    holds. *)
Definition log_if (c : bool) (msg : string) (s : Env) : Env :=
  if c then set_log (log s ++ [msg]) s else s.

(** The reasons after a test of [done_function] that sets [key] when [c]
    holds. *)
Definition set_flag (c : bool) (key : string) (info : gmap string bool)
  : gmap string bool :=
  if c then <[key := true]> info else info.

(** The messages [done_function] logs, in the order of its five tests. *)
Definition done_messages (arrive out crash_v crash_o crash_b : bool) : list string :=
  (if arrive then ["Episode ended! Reason: arrive_dest."] else [])
  ++ (if out then ["Episode ended! Reason: out_of_road."] else [])
  ++ (if crash_v then ["Episode ended! Reason: crash vehicle "] else [])
  ++ (if crash_o then ["Episode ended! Reason: crash object "] else [])
  ++ (if crash_b then ["Episode ended! Reason: crash building "] else []).

(** The seed window [[start_scenario_index, start_scenario_index +
    num_scenario)]. *)
Definition in_window (cfg : Config) (x : Z) : bool :=
  (start_scenario_index cfg <=? x)
  && (x <? start_scenario_index cfg + num_scenario cfg).

(** Sequential selection in the words of the specification: without a
    prior seed the window start; otherwise the prior seed plus 1, wrapped
    to the window start once it reaches the end of the window. *)
Definition spec_sequential_seed (cfg : Config) (prior : option Z) : Z :=
  match prior with
  | None => start_scenario_index cfg
  | Some p =>
      if start_scenario_index cfg + num_scenario cfg <=? p + 1
      then start_scenario_index cfg
      else p + 1
  end.

(** [l] is the last valid frame of [mask]. *)
Definition is_last_valid (mask : list bool) (l : nat) : Prop :=
  mask !! l = Some true /\ forall j : nat, (l < j)%nat -> mask !! j <> Some true.

(** Lines 217-220: the lane used for the dense reward, when there is one. *)
Definition current_lane_of (v : Vehicle) : option Lane :=
  if lane_in (lane v) (current_ref_lanes (navigation v)) then Some (lane v)
  else head (current_ref_lanes (navigation v)).

(** The expert log can be read for the agent: the scenario of the global
    seed is [data], and the agent's track, when it is there and not empty,
    has a valid frame and as many positions as mask entries; the episode
    step is not negative. *)
Definition expert_ready (s : Env) (vehicle_id : string) (data : Scenario) : Prop :=
  (exists g : Z, global_seed s = Some g /\ data_manager s !! g = Some data)
  /\ 0 <= episode_step s
  /\ match tracks data !! native_vid vehicle_id data with
     | Some (TrackOf st) =>
         (exists l : nat, is_last_valid (st_valid st) l)
         /\ List.length (st_position st) = List.length (st_valid st)
     | _ => True
     end.

(** The resolution of the expert index in the words of the specification:
    from the clamped index, step back while the frame is invalid, and stop
    at a valid frame or at index 0. *)
Fixpoint spec_walk_back (mask : list bool) (i : nat) : nat :=
  match i with
  | O => O
  | S i' => if default false (mask !! i) then i else spec_walk_back mask i'
  end.

Definition spec_resolve (mask : list bool) (last_valid step_index : nat) : nat :=
  spec_walk_back mask (Nat.min step_index last_valid).

(** A computation that leaves the environment as it found it. *)
Definition preserves_state {A} (m : M A) : Prop :=
  forall (s : Env) (a : A) (s' : Env), m s = Ok (a, s') -> s' = s.

(** A computation that changes at most the log. *)
Definition writes_log_only {A} (m : M A) : Prop :=
  forall (s : Env) (a : A) (s' : Env), m s = Ok (a, s') -> s' = set_log (log s') s.

(** The diagnostic [key] of a reward evaluation that returned. *)
Definition diagnostic (key : string)
    (r : result (Q * gmap string value * Env)) : option value :=
  match r with
  | Ok (_, step_info, _) => step_info !! key
  | Raise _ => None
  end.

(** ** A small scene, used to run the evaluators *)

Module Demo.

(** A straight lane along the x axis: longitudinal = x, lateral = y. *)
Definition straight (id : nat) (len : Q) : Lane :=
  {| lane_id := id; local_coordinates := fun p => p; length := len |}.

Definition cfg : Config :=
  {| start_scenario_index := 5; num_scenario := 3; sequential_seed := true;
     success_reward := 10; out_of_road_penalty := 10;
     crash_vehicle_penalty := 1; crash_object_penalty := 1;
     driving_reward := 1; use_lateral_reward := false;
     crash_vehicle_cost := 1; crash_object_cost := 1; out_of_road_cost := 1;
     out_of_route_done := false; crash_vehicle_done := false;
     relax_out_of_road_done := true; coordinate_transform := true |}.

Definition car (x y : Q) (cv co cb : bool) : Vehicle :=
  {| name := "car0"; position := (x, y); last_position := ((x - 1)%Q, y);
     lane := straight 1 100;
     navigation := {| reference_trajectory := straight 0 100;
                      current_ref_lanes := [straight 1 100] |};
     crash_vehicle := cv; crash_object := co; crash_building := cb;
     crash_sidewalk := false; on_yellow_continuous_line := false;
     on_white_continuous_line := false;
     WIDTH := 2; LENGTH := 4; _dynamics_mode := None |}.

(** The logged positions (0,0,0), (1,0,0), (2,0,0), ... *)
Definition ramp (n : nat) : list (Q * Q * Q) :=
  map (fun i : nat => (inject_Z (Z.of_nat i), 0%Q, 0%Q)) (seq 0 n).

Definition track (mask : list bool) : Track :=
  TrackOf {| st_position := ramp (List.length mask); st_valid := mask |}.

Definition scenario (mask : list bool) : Scenario :=
  {| sdc_id := "ego"; tracks := {[ "ego" := track mask ]} |}.

(** The scene: one agent, scenario 7 of the window [5, 8). *)
Definition env (v : Vehicle) (cached : Q) (mask : list bool) (step : Z) : Env :=
  {| config := cfg;
     vehicles := {[ "default_agent" := v ]};
     observations := {[ "default_agent" := {| lateral_dist := cached |} ]};
     agent_manager := {[ "car0" := "default_agent" ]};
     current_sdc_route := straight 2 100;
     data_manager := {[ 7 := scenario mask ]};
     global_seed := Some 7;
     episode_step := step;
     log := [] |}.

(** Stand-ins for the functions defined elsewhere. *)
Definition norm1 (p : Point) : Q := (Qabs (fst p) + Qabs (snd p))%Q.
Definition flip_y (p : Point) : Point := (fst p, (- snd p)%Q).
Definition clip (a lo hi : Q) : Q :=
  if Qle_bool a lo then lo else if Qle_bool hi a then hi else a.
Definition draw_low (lo hi : Z) : result Z :=
  if lo <? hi then Ok lo else Raise ValueError.

End Demo.

(** ** Further scenes and repeated calls *)

(** The environment with another configuration. *)
Definition set_config (c : Config) (s : Env) : Env :=
  {| config := c; vehicles := vehicles s; observations := observations s;
     agent_manager := agent_manager s; current_sdc_route := current_sdc_route s;
     data_manager := data_manager s; global_seed := global_seed s;
     episode_step := episode_step s; log := log s |}.

(** [Demo.cfg] with the strict out-of-road test, with or without the
    out-of-route test. *)
Definition strict_cfg (route_done : bool) : Config :=
  {| start_scenario_index := 5; num_scenario := 3; sequential_seed := true;
     success_reward := 10; out_of_road_penalty := 10;
     crash_vehicle_penalty := 1; crash_object_penalty := 1;
     driving_reward := 1; use_lateral_reward := false;
     crash_vehicle_cost := 1; crash_object_cost := 1; out_of_road_cost := 1;
     out_of_route_done := route_done; crash_vehicle_done := false;
     relax_out_of_road_done := false; coordinate_transform := true |}.

(** A vehicle whose navigation has no reference lane. *)
Definition lost_car : Vehicle :=
  {| name := "car0"; position := (50%Q, 0%Q); last_position := (49%Q, 0%Q);
     lane := Demo.straight 1 100;
     navigation := {| reference_trajectory := Demo.straight 0 100;
                      current_ref_lanes := [] |};
     crash_vehicle := false; crash_object := false; crash_building := false;
     crash_sidewalk := false; on_yellow_continuous_line := false;
     on_white_continuous_line := false;
     WIDTH := 2; LENGTH := 4; _dynamics_mode := None |}.

(** A vehicle on the lane, with the given line and sidewalk flags. *)
Definition line_car (sidewalk yellow white : bool) : Vehicle :=
  {| name := "car0"; position := (50%Q, 0%Q); last_position := (49%Q, 0%Q);
     lane := Demo.straight 1 100;
     navigation := {| reference_trajectory := Demo.straight 0 100;
                      current_ref_lanes := [Demo.straight 1 100] |};
     crash_vehicle := false; crash_object := false; crash_building := false;
     crash_sidewalk := sidewalk; on_yellow_continuous_line := yellow;
     on_white_continuous_line := white;
     WIDTH := 2; LENGTH := 4; _dynamics_mode := None |}.

(** A vehicle that stands where it stood at the last step. *)
Definition parked_car : Vehicle :=
  {| name := "car0"; position := (50%Q, 0%Q); last_position := (50%Q, 0%Q);
     lane := Demo.straight 1 100;
     navigation := {| reference_trajectory := Demo.straight 0 100;
                      current_ref_lanes := [Demo.straight 1 100] |};
     crash_vehicle := false; crash_object := false; crash_building := false;
     crash_sidewalk := false; on_yellow_continuous_line := false;
     on_white_continuous_line := false;
     WIDTH := 2; LENGTH := 4; _dynamics_mode := Some "dynamic" |}.

(** The environment with other scenario records. *)
Definition set_data_manager (d : gmap Z Scenario) (s : Env) : Env :=
  {| config := config s; vehicles := vehicles s; observations := observations s;
     agent_manager := agent_manager s; current_sdc_route := current_sdc_route s;
     data_manager := d; global_seed := global_seed s;
     episode_step := episode_step s; log := log s |}.

(** A scenario record without any track. *)
Definition bare_scenario : Scenario := {| sdc_id := "ego"; tracks := ∅ |}.

(** [k] calls of [_reset_global_seed] in a row without a forced seed, as
    [k] episode resets make them. *)
Fixpoint sequential_resets (randint : Z -> Z -> result Z) (k : nat) : M unit :=
  match k with
  | O => ret tt
  | S k' =>
      bind (_reset_global_seed randint None)
        (fun _ => sequential_resets randint k')
  end.

(** The keys of [done_info]. *)
Definition done_info_keys : gset string :=
  {[ "arrive_dest"; "out_of_road"; "crash_vehicle"; "crash_object";
     "crash_building"; "crash" ]}.

(** * Properties *)

(** ** Comparisons and division *)

Lemma Qltb_lt (x y : Q) : Qltb x y = true <-> (x < y)%Q.
Proof.
  unfold Qltb. rewrite negb_true_iff, <- not_true_iff_false, Qle_bool_iff.
  split; [apply Qnot_le_lt | apply Qlt_not_le].
Qed.

Lemma Qltb_ge (x y : Q) : Qltb x y = false <-> (y <= x)%Q.
Proof. unfold Qltb. rewrite negb_false_iff. apply Qle_bool_iff. Qed.

Lemma py_div_ok (x y : Q) : Qeq_bool y 0 = false -> py_div x y = Ok (x / y)%Q.
Proof. intros H. unfold py_div. now rewrite H. Qed.

(** ** Running the monad *)

Lemma bind_ok {A B} (m : M A) (k : A -> M B) (s s' : Env) (a : A) :
  m s = Ok (a, s') -> bind m k s = k a s'.
Proof. intros H. unfold bind. now rewrite H. Qed.

Lemma bind_raise {A B} (m : M A) (k : A -> M B) (s : Env) (e : exn) :
  m s = Raise e -> bind m k s = Raise e.
Proof. intros H. unfold bind. now rewrite H. Qed.

Lemma get_vehicle_ok (s : Env) (vehicle_id : string) (v : Vehicle) :
  vehicles s !! vehicle_id = Some v -> get_vehicle vehicle_id s = Ok (v, s).
Proof. intros H. unfold get_vehicle, bind, gets, lift, dict_get. now rewrite H. Qed.

Lemma object_to_agent_ok (s : Env) (n a : string) :
  agent_manager s !! n = Some a -> object_to_agent n s = Ok (a, s).
Proof. intros H. unfold object_to_agent, bind, gets, lift, dict_get. now rewrite H. Qed.

Lemma read_lateral_dist_ok (s : Env) (a : string) (o : Observation) :
  observations s !! a = Some o -> read_lateral_dist a s = Ok (lateral_dist o, s).
Proof.
  intros H. unfold read_lateral_dist, bind, gets, lift, dict_get. now rewrite H.
Qed.

(** ** The two predicates *)

Lemma _is_arrive_destination_ok (s : Env) (v : Vehicle) :
  Qeq_bool (length (reference_trajectory (navigation v))) 0 = false ->
  _is_arrive_destination v s
  = Ok (arrival_threshold_check (route_completion_of v), s).
Proof.
  intros H. unfold _is_arrive_destination, route_completion_of.
  destruct (local_coordinates _ _) as [long lat]; simpl.
  unfold bind, lift. rewrite (py_div_ok _ _ H).
  now destruct (arrival_threshold_check _).
Qed.

Lemma _is_out_of_road_ok (s : Env) (v : Vehicle) (a : string) (o : Observation) :
  agent_manager s !! name v = Some a ->
  observations s !! a = Some o ->
  _is_out_of_road v s = Ok (out_of_road_decision (config s) (lateral_dist o) v, s).
Proof.
  intros Ha Ho. unfold _is_out_of_road, out_of_road_decision.
  unfold bind at 1. unfold gets at 1.
  destruct (relax_out_of_road_done (config s)).
  - rewrite (bind_ok _ _ _ _ _ (object_to_agent_ok _ _ _ Ha)).
    now rewrite (bind_ok _ _ _ _ _ (read_lateral_dist_ok _ _ _ Ho)).
  - destruct (out_of_route_done (config s)).
    + rewrite (bind_ok _ _ _ _ _ (object_to_agent_ok _ _ _ Ha)).
      destruct (crash_sidewalk v || on_yellow_continuous_line v
                || on_white_continuous_line v); [reflexivity|].
      now rewrite (bind_ok _ _ _ _ _ (read_lateral_dist_ok _ _ _ Ho)).
    + now rewrite andb_false_l, orb_false_r.
Qed.

(** ** Termination *)

(** One of the five tests of [done_function]: the flag is set and the
    reason logged when the test holds, and nothing changes otherwise. *)
Lemma run_flag {B} (c : bool) (msg key : string) (d : bool)
    (info : gmap string bool) (k : bool * gmap string bool -> M B) (s : Env) :
  bind (if c then bind (logging_info msg)
                    (fun _ => ret (true, <[key := true]> info))
        else ret (d, info)) k s
  = k (c || d, set_flag c key info) (log_if c msg s).
Proof. now destruct c. Qed.

Lemma config_log_if (c : bool) (m : string) (s : Env) :
  config (log_if c m s) = config s.
Proof. now destruct c. Qed.

Lemma _is_out_of_road_log_if (c : bool) (m : string) (s : Env) (v : Vehicle)
    (a : string) (o : Observation) :
  agent_manager s !! name v = Some a ->
  observations s !! a = Some o ->
  _is_out_of_road v (log_if c m s)
  = Ok (out_of_road_decision (config s) (lateral_dist o) v, log_if c m s).
Proof.
  intros Ha Ho. rewrite <- (config_log_if c m s).
  apply _is_out_of_road_ok with a; now destruct c.
Qed.

Lemma lookup_set_flag_eq (c : bool) (k : string) (m : gmap string bool) :
  set_flag c k m !! k = if c then Some true else m !! k.
Proof. destruct c; [apply lookup_insert_eq | reflexivity]. Qed.

Lemma lookup_set_flag_ne (c : bool) (k k' : string) (m : gmap string bool) :
  k' <> k -> set_flag c k' m !! k = m !! k.
Proof. intros H. destruct c; [now apply lookup_insert_ne | reflexivity]. Qed.

(** Reads a reason in the dict built by the five tests. *)
Ltac flag_lookup :=
  unfold TerminationState.SUCCESS, TerminationState.OUT_OF_ROAD,
    TerminationState.CRASH_VEHICLE, TerminationState.CRASH_OBJECT,
    TerminationState.CRASH_BUILDING, TerminationState.CRASH;
  repeat first [ rewrite lookup_set_flag_eq
               | rewrite lookup_set_flag_ne by discriminate
               | rewrite lookup_insert_ne by discriminate ];
  try match goal with |- (if ?c then _ else _) = _ => destruct c end;
  reflexivity.

Lemma done_log (s : Env) (c1 c2 c3 c4 c5 : bool) (m1 m2 m3 m4 m5 : string) :
  log_if c5 m5 (log_if c4 m4 (log_if c3 m3 (log_if c2 m2 (log_if c1 m1 s))))
  = set_log (log s ++ (if c1 then [m1] else []) ++ (if c2 then [m2] else [])
             ++ (if c3 then [m3] else []) ++ (if c4 then [m4] else [])
             ++ (if c5 then [m5] else [])) s.
Proof.
  destruct s, c1, c2, c3, c4, c5; cbn -[app];
    rewrite <- ?app_assoc, ?app_nil_r; reflexivity.
Qed.

Lemma done_function_run (s : Env) (vehicle_id : string) (v : Vehicle)
    (a : string) (o : Observation) :
  agent_ready s vehicle_id v a o ->
  let rc := route_completion_of v in
  let arrive := arrival_threshold_check rc || done_inline_arrival_check rc in
  let out := out_of_road_decision (config s) (lateral_dist o) v
             || done_inline_off_route_check rc in
  let cv := crash_vehicle v && crash_vehicle_done (config s) in
  let co := crash_object v in
  let cb := crash_building v in
  exists info : gmap string bool,
    done_function vehicle_id s
    = Ok ((arrive || out || cv || co || cb, info),
          set_log (log s ++ done_messages arrive out cv co cb) s)
    /\ info !! "arrive_dest" = Some arrive
    /\ info !! "out_of_road" = Some out
    /\ info !! "crash_vehicle" = Some cv
    /\ info !! "crash_object" = Some co
    /\ info !! "crash_building" = Some cb
    /\ info !! "crash" = Some (cv || co || cb).
Proof.
  intros (Hv & Hlen & Ha & Ho) rc arrive out cv co cb.
  unfold done_function.
  rewrite (bind_ok _ _ _ _ _ (get_vehicle_ok _ _ _ Hv)).
  pose proof (_is_arrive_destination_ok s v Hlen) as Harr.
  fold rc in Harr.
  assert (Hrc : py_div (fst (local_coordinates (reference_trajectory (navigation v))
                               (position v)))
                  (length (reference_trajectory (navigation v))) = Ok rc)
    by (apply py_div_ok, Hlen).
  destruct (local_coordinates (reference_trajectory (navigation v)) (position v))
    as [long lat]; simpl in Hrc.
  unfold bind at 1. unfold lift at 1. rewrite Hrc.
  rewrite (bind_ok _ _ _ _ _ Harr).
  fold arrive.
  set (od := out_of_road_decision (config s) (lateral_dist o) v) in *.
  rewrite run_flag; cbv beta iota.
  rewrite (bind_ok _ _ _ _ _ (_is_out_of_road_log_if _ _ _ _ _ _ Ha Ho)).
  fold od out.
  rewrite run_flag; cbv beta iota.
  unfold bind at 1, gets at 1. rewrite !config_log_if. fold cv.
  rewrite run_flag; cbv beta iota. fold co.
  rewrite run_flag; cbv beta iota. fold cb.
  rewrite run_flag; cbv beta iota.
  rewrite done_log. fold (done_messages arrive out cv co cb).
  match goal with |- context [dict_get ?m TerminationState.CRASH_VEHICLE] =>
    set (info5 := m) end.
  assert (L1 : info5 !! "arrive_dest" = Some arrive) by (subst info5; flag_lookup).
  assert (L2 : info5 !! "out_of_road" = Some out) by (subst info5; flag_lookup).
  assert (L3 : info5 !! "crash_vehicle" = Some cv) by (subst info5; flag_lookup).
  assert (L4 : info5 !! "crash_object" = Some co) by (subst info5; flag_lookup).
  assert (L5 : info5 !! "crash_building" = Some cb) by (subst info5; flag_lookup).
  clearbody info5.
  exists (<["crash" := cv || co || cb]> info5).
  clearbody arrive out cv co cb.
  split; [| repeat split; try (rewrite lookup_insert_ne by discriminate; assumption);
            apply lookup_insert_eq].
  unfold bind, lift, dict_get, ret, TerminationState.CRASH_VEHICLE,
    TerminationState.CRASH_OBJECT, TerminationState.CRASH_BUILDING,
    TerminationState.CRASH.
  rewrite L3. destruct cv; [| rewrite L4; destruct co; [| rewrite L5]];
    destruct arrive, out, cb; try destruct co; reflexivity.
Qed.

Lemma arrival_checks_agree (rc : Q) :
  arrival_threshold_check rc || done_inline_arrival_check rc
  = arrival_threshold_check rc.
Proof.
  unfold arrival_threshold_check, done_inline_arrival_check.
  destruct (Qltb (95 # 100) rc) eqn:E1; [reflexivity|].
  destruct (Qltb 1 rc) eqn:E2; [|reflexivity].
  apply Qltb_ge in E1. apply Qltb_lt in E2. lra.
Qed.

Lemma demo_ready (v : Vehicle) (d : Q) (mask : list bool) (step : Z) :
  name v = "car0" ->
  Qeq_bool (length (reference_trajectory (navigation v))) 0 = false ->
  agent_ready (Demo.env v d mask step) "default_agent" v "default_agent"
    {| lateral_dist := d |}.
Proof.
  intros Hn Hl. unfold agent_ready, Demo.env; cbn [vehicles agent_manager observations].
  rewrite Hn. repeat split; try apply lookup_singleton_eq. exact Hl.
Defined.

(** C4. For a vehicle known to the environment, [done_function] returns,
    and: each of the five reasons is recorded in [done_info]; [done] is
    their disjunction; the five tests all run, in the fixed order, as the
    log shows; the crash_vehicle reason is the collision flag gated by
    [crash_vehicle_done], the crash_object and crash_building reasons are
    the collision flags themselves; the aggregate [crash] is the
    disjunction of the three crash reasons; and with [crash_vehicle_done]
    disabled and no other reason, [done] is false. *)
Theorem done_is_disjunction_of_reasons (s : Env) (vehicle_id : string)
    (v : Vehicle) (a : string) (o : Observation) :
  agent_ready s vehicle_id v a o ->
  exists (done arrive out cv co cb : bool) (info : gmap string bool) (s' : Env),
    done_function vehicle_id s = Ok ((done, info), s')
    /\ info !! "arrive_dest" = Some arrive
    /\ info !! "out_of_road" = Some out
    /\ info !! "crash_vehicle" = Some cv
    /\ info !! "crash_object" = Some co
    /\ info !! "crash_building" = Some cb
    /\ done = arrive || out || cv || co || cb
    /\ cv = crash_vehicle v && crash_vehicle_done (config s)
    /\ co = crash_object v
    /\ cb = crash_building v
    /\ info !! "crash" = Some (cv || co || cb)
    /\ log s' = log s ++ done_messages arrive out cv co cb
    /\ (crash_vehicle_done (config s) = false ->
        arrive = false -> out = false -> co = false -> cb = false ->
        done = false /\ cv = false).
Proof.
  intros Hr.
  destruct (done_function_run s vehicle_id v a o Hr)
    as (info & Hrun & L1 & L2 & L3 & L4 & L5 & L6).
  eexists _, _, _, _, _, _, info, _.
  split; [exact Hrun|].
  repeat (split; [first [eassumption | reflexivity]|]).
  intros Hd -> -> -> ->. rewrite Hd, andb_false_r. now split.
Qed.

Lemma done_is_disjunction_of_reasons_witness :
  exists (done : bool) (info : gmap string bool) (s' : Env),
    done_function "default_agent"
      (Demo.env (Demo.car 50 0 true false false) 0 [true] 1)
    = Ok ((done, info), s')
    /\ info !! "crash_vehicle" = Some false.
Proof.
  destruct (done_is_disjunction_of_reasons
              (Demo.env (Demo.car 50 0 true false false) 0 [true] 1)
              "default_agent" (Demo.car 50 0 true false false)
              "default_agent" {| lateral_dist := 0 |}
              (demo_ready (Demo.car 50 0 true false false) 0 [true] 1
                 eq_refl eq_refl))
    as (done & arrive & out & cv & co & cb & info & s' & Hrun & L1 & L2 & L3
        & L4 & L5 & Hd & Hcv & Hco & Hcb & L6 & Hlog & Hoff).
  exists done, info, s'. split; [exact Hrun|].
  rewrite L3, Hcv. reflexivity.
Defined.

(** C5. For a vehicle known to the environment, [done_function] returns,
    and: if route_completion > 0.95 the arrive_dest reason is true (and the
    episode is done); if route_completion <= 0.95 the arrive_dest reason is
    false.  [_is_arrive_destination] returns exactly the test
    route_completion > 0.95. *)
Theorem arrive_dest_threshold (s : Env) (vehicle_id : string)
    (v : Vehicle) (a : string) (o : Observation) :
  agent_ready s vehicle_id v a o ->
  exists (done b : bool) (info : gmap string bool) (s' : Env),
    done_function vehicle_id s = Ok ((done, info), s')
    /\ _is_arrive_destination v s = Ok (b, s)
    /\ (b = true <-> (95 # 100 < route_completion_of v)%Q)
    /\ ((95 # 100 < route_completion_of v)%Q ->
        info !! "arrive_dest" = Some true /\ done = true)
    /\ ((route_completion_of v <= 95 # 100)%Q ->
        info !! "arrive_dest" = Some false).
Proof.
  intros Hr.
  destruct (done_function_run s vehicle_id v a o Hr)
    as (info & Hrun & L1 & _).
  destruct Hr as (Hv & Hlen & Ha & Ho).
  rewrite arrival_checks_agree in Hrun, L1.
  eexists _, _, info, _. split; [exact Hrun|].
  split; [apply _is_arrive_destination_ok, Hlen|].
  split; [apply Qltb_lt|].
  split.
  - intros H. apply Qltb_lt in H. unfold arrival_threshold_check.
    rewrite L1. unfold arrival_threshold_check. rewrite H. now split.
  - intros H. apply Qltb_ge in H. rewrite L1.
    unfold arrival_threshold_check. now rewrite H.
Qed.

Lemma arrive_dest_threshold_witness :
  exists (done : bool) (info : gmap string bool) (s' : Env),
    done_function "default_agent"
      (Demo.env (Demo.car 96 0 false false false) 0 [true] 1)
    = Ok ((done, info), s')
    /\ info !! "arrive_dest" = Some true.
Proof.
  destruct (arrive_dest_threshold
              (Demo.env (Demo.car 96 0 false false false) 0 [true] 1)
              "default_agent" (Demo.car 96 0 false false false)
              "default_agent" {| lateral_dist := 0 |}
              (demo_ready (Demo.car 96 0 false false false) 0 [true] 1
                 eq_refl eq_refl))
    as (done & b & info & s' & Hrun & _ & _ & Hgt & _).
  exists done, info, s'. split; [exact Hrun|].
  apply Hgt. reflexivity.
Defined.

(** C6. For a vehicle known to the environment, [done_function] returns
    with the out_of_road reason true whenever route_completion < -0.1,
    whatever the other flags; and with [relax_out_of_road_done] set,
    [_is_out_of_road] returns true exactly when the absolute cached lateral
    distance is greater than 10, or the vehicle is on a continuous yellow
    line, or on the sidewalk. *)
Theorem out_of_road_conditions (s : Env) (vehicle_id : string)
    (v : Vehicle) (a : string) (o : Observation) :
  agent_ready s vehicle_id v a o ->
  (exists (done : bool) (info : gmap string bool) (s' : Env),
      done_function vehicle_id s = Ok ((done, info), s')
      /\ ((route_completion_of v < - (1 # 10))%Q ->
          info !! "out_of_road" = Some true /\ done = true))
  /\ (relax_out_of_road_done (config s) = true ->
      exists b : bool,
        _is_out_of_road v s = Ok (b, s)
        /\ (b = true <->
            (10 < Qabs (lateral_dist o))%Q
            \/ on_yellow_continuous_line v = true
            \/ crash_sidewalk v = true)).
Proof.
  intros Hr. split.
  - destruct (done_function_run s vehicle_id v a o Hr)
      as (info & Hrun & _ & L2 & _).
    eexists _, info, _. split; [exact Hrun|].
    intros H. apply Qltb_lt in H. unfold done_inline_off_route_check in *.
    rewrite L2, H, !orb_true_r. now split.
  - destruct Hr as (Hv & Hlen & Ha & Ho). intros Hrelax.
    eexists. split; [apply (_is_out_of_road_ok s v a o Ha Ho)|].
    unfold out_of_road_decision. rewrite Hrelax.
    rewrite !orb_true_iff, Qltb_lt. tauto.
Qed.

Lemma out_of_road_conditions_witness :
  _is_out_of_road (Demo.car 50 0 false false false)
    (Demo.env (Demo.car 50 0 false false false) (99999 # 10000) [true] 1)
  = Ok (false, Demo.env (Demo.car 50 0 false false false) (99999 # 10000) [true] 1).
Proof.
  destruct (out_of_road_conditions
              (Demo.env (Demo.car 50 0 false false false) (99999 # 10000) [true] 1)
              "default_agent" (Demo.car 50 0 false false false)
              "default_agent" {| lateral_dist := 99999 # 10000 |}
              (demo_ready (Demo.car 50 0 false false false) (99999 # 10000)
                 [true] 1 eq_refl eq_refl))
    as [_ Hrel].
  destruct (Hrel eq_refl) as (b & Hrun & Hb).
  rewrite Hrun. destruct b; [|reflexivity].
  exfalso. destruct (proj1 Hb eq_refl) as [H | [H | H]]; discriminate H.
Defined.

(** C3, as stated: the inline arrival test of [done_function] is the same
    test as the helper's.  It is not: at route_completion = 0.97 the helper
    fires and the inline test, whose threshold is 1.0, does not. *)
Lemma inline_arrival_threshold_differs :
  ~ (forall rc : Q, done_inline_arrival_check rc = arrival_threshold_check rc).
Proof. intros H. specialize (H (97 # 100)). discriminate H. Qed.

(** C3, amended.  The inline test of [done_function] compares with 1.0 and
    the helper with 0.95; the inline test never fires without the helper,
    so the arrive_dest reason of [done_function] is exactly the helper's
    test route_completion > 0.95. *)
Theorem arrival_effective_threshold (s : Env) (vehicle_id : string)
    (v : Vehicle) (a : string) (o : Observation) :
  agent_ready s vehicle_id v a o ->
  (forall rc : Q, done_inline_arrival_check rc = Qltb 1 rc)
  /\ (forall rc : Q, arrival_threshold_check rc = Qltb (95 # 100) rc)
  /\ (forall rc : Q,
        done_inline_arrival_check rc = true -> arrival_threshold_check rc = true)
  /\ exists (done b : bool) (info : gmap string bool) (s' : Env),
       done_function vehicle_id s = Ok ((done, info), s')
       /\ _is_arrive_destination v s = Ok (b, s)
       /\ info !! "arrive_dest" = Some b
       /\ (b = true <-> (95 # 100 < route_completion_of v)%Q).
Proof.
  intros Hr. split; [reflexivity|]. split; [reflexivity|]. split.
  - intros rc H. rewrite <- arrival_checks_agree, H. apply orb_true_r.
  - destruct (done_function_run s vehicle_id v a o Hr)
      as (info & Hrun & L1 & _).
    destruct Hr as (Hv & Hlen & Ha & Ho).
    rewrite arrival_checks_agree in Hrun, L1.
    eexists _, _, info, _. split; [exact Hrun|].
    split; [apply _is_arrive_destination_ok, Hlen|].
    split; [exact L1|]. apply Qltb_lt.
Qed.

Lemma arrival_effective_threshold_witness :
  exists (done : bool) (info : gmap string bool) (s' : Env),
    done_function "default_agent"
      (Demo.env (Demo.car 97 0 false false false) 0 [true] 1)
    = Ok ((done, info), s')
    /\ info !! "arrive_dest" = Some true.
Proof.
  destruct (arrival_effective_threshold
              (Demo.env (Demo.car 97 0 false false false) 0 [true] 1)
              "default_agent" (Demo.car 97 0 false false false)
              "default_agent" {| lateral_dist := 0 |}
              (demo_ready (Demo.car 97 0 false false false) 0 [true] 1
                 eq_refl eq_refl))
    as (_ & _ & _ & done & b & info & s' & Hrun & Harr & L1 & Hb).
  exists done, info, s'. split; [exact Hrun|].
  rewrite L1. f_equal. apply Hb. reflexivity.
Defined.

(** ** Cost *)

Lemma cost_first_match_run (s : Env) (vehicle_id : string)
    (v : Vehicle) (a : string) (o : Observation) :
  agent_ready s vehicle_id v a o ->
  exists r : Q * gmap string Q, cost_function vehicle_id s = Ok (r, s).
Proof.
  intros (Hv & Hlen & Ha & Ho). unfold cost_function.
  rewrite (bind_ok _ _ _ _ _ (get_vehicle_ok _ _ _ Hv)).
  rewrite (bind_ok _ _ _ _ _ (_is_out_of_road_ok s v a o Ha Ho)).
  unfold bind, gets, lift, dict_get, ret.
  destruct (out_of_road_decision _ _ _), (crash_vehicle v), (crash_object v);
    rewrite ?lookup_insert_eq; eexists; reflexivity.
Qed.

(** C7. For a vehicle known to the environment, [cost_function] returns
    the first match of: out of road, the out-of-road cost; else vehicle
    crash, the vehicle cost; else object crash, the object cost; else 0.
    So out of road together with a vehicle crash costs the out-of-road
    cost, and a building crash without the three others costs 0. *)
Theorem cost_first_match (s : Env) (vehicle_id : string)
    (v : Vehicle) (a : string) (o : Observation) :
  agent_ready s vehicle_id v a o ->
  exists (out : bool) (cost : Q) (step_info : gmap string Q),
    _is_out_of_road v s = Ok (out, s)
    /\ cost_function vehicle_id s = Ok ((cost, step_info), s)
    /\ step_info !! "cost" = Some cost
    /\ cost = (if out then out_of_road_cost (config s)
               else if crash_vehicle v then crash_vehicle_cost (config s)
               else if crash_object v then crash_object_cost (config s)
               else 0%Q)
    /\ (out = true -> crash_vehicle v = true -> cost = out_of_road_cost (config s))
    /\ (out = false -> crash_vehicle v = false -> crash_object v = false ->
        crash_building v = true -> cost = 0%Q).
Proof.
  intros (Hv & Hlen & Ha & Ho).
  pose proof (_is_out_of_road_ok s v a o Ha Ho) as Hout.
  set (out := out_of_road_decision (config s) (lateral_dist o) v) in *.
  exists out. unfold cost_function.
  rewrite (bind_ok _ _ _ _ _ (get_vehicle_ok _ _ _ Hv)).
  rewrite (bind_ok _ _ _ _ _ Hout).
  unfold bind, gets, lift, dict_get, ret.
  clearbody out.
  destruct out, (crash_vehicle v), (crash_object v);
    rewrite ?lookup_insert_eq;
    (eexists _, _; split; [exact Hout|]; split; [reflexivity|];
     split; [first [apply lookup_insert_eq | reflexivity]|];
     split; [reflexivity|]; split; intros; congruence).
Qed.

Lemma cost_first_match_witness :
  exists (step_info : gmap string Q),
    cost_function "default_agent"
      (Demo.env (Demo.car 50 0 false false true) 0 [true] 1)
    = Ok ((0%Q, step_info),
          Demo.env (Demo.car 50 0 false false true) 0 [true] 1).
Proof.
  destruct (cost_first_match
              (Demo.env (Demo.car 50 0 false false true) 0 [true] 1)
              "default_agent" (Demo.car 50 0 false false true)
              "default_agent" {| lateral_dist := 0 |}
              (demo_ready (Demo.car 50 0 false false true) 0 [true] 1
                 eq_refl eq_refl))
    as (out & cost & info & Hout & Hrun & L & Hc & _ & Hb).
  exists info. rewrite Hrun.
  assert (out = false) as -> by (vm_compute in Hout; congruence).
  rewrite (Hb eq_refl eq_refl eq_refl eq_refl). reflexivity.
Defined.

(** ** Seed selection *)

(** C9. A forced seed is taken as it is; in sequential mode the seed is the
    window start when there is no prior seed, and otherwise the prior seed
    plus 1, wrapped to the window start once it reaches the end of the
    window.  In every mode the chosen seed is checked: inside the window it
    becomes the global seed, outside the call raises [AssertionError] and
    changes nothing; so whenever the call returns, the global seed lies in
    the window.  With a non-empty window, sequential selection from no
    prior seed or from a prior seed of the window returns.  From seed 7 in
    the window [5, 8) the next seed is 5. *)
Theorem seed_selection (randint : Z -> Z -> result Z) (s : Env) :
  let cfg := config s in
  let checked (c : Z) : result (unit * Env) :=
    if in_window cfg c then Ok (tt, set_global_seed (Some c) s)
    else Raise AssertionError in
  (sequential_seed cfg = true ->
   _reset_global_seed randint None s
   = checked (spec_sequential_seed cfg (global_seed s)))
  /\ (forall f : Z, _reset_global_seed randint (Some f) s = checked f)
  /\ (forall (force : option Z) (u : unit) (s' : Env),
        _reset_global_seed randint force s = Ok (u, s') ->
        exists g : Z,
          s' = set_global_seed (Some g) s
          /\ start_scenario_index cfg <= g
             < start_scenario_index cfg + num_scenario cfg)
  /\ (sequential_seed cfg = true ->
      0 < num_scenario cfg ->
      (global_seed s = None
       \/ exists p, global_seed s = Some p /\ in_window cfg p = true) ->
      exists g : Z,
        _reset_global_seed randint None s = Ok (tt, set_global_seed (Some g) s)
        /\ in_window cfg g = true).
Proof.
  intros cfg checked.
  assert (Hforced : forall f, _reset_global_seed randint (Some f) s = checked f).
  { intros f. unfold _reset_global_seed, bind, gets, ret, seed, modify, raise,
      checked, in_window. fold cfg. now destruct (_ && _). }
  assert (Hnone : sequential_seed cfg = true ->
                  _reset_global_seed randint None s
                  = checked (spec_sequential_seed cfg (global_seed s))).
  { intros Hseq.
    unfold _reset_global_seed, bind, gets, ret, seed, modify, raise, checked,
      in_window, spec_sequential_seed. fold cfg. rewrite Hseq.
    destruct (global_seed s) as [p|].
    - destruct (_ <=? p + 1); now destruct (_ && _).
    - destruct (_ <=? start_scenario_index cfg); now destruct (_ && _). }
  assert (Hdraw : sequential_seed cfg = false ->
                  (exists c, _reset_global_seed randint None s = checked c)
                  \/ (exists e, _reset_global_seed randint None s = Raise e)).
  { intros Hseq.
    unfold _reset_global_seed, bind, gets, ret, seed, modify, raise, checked,
      in_window, lift. fold cfg. rewrite Hseq.
    destruct (randint _ _) as [c|e]; [left; exists c | right; exists e; reflexivity].
    now destruct (_ && _). }
  split; [exact Hnone|]. split; [exact Hforced|]. split.
  - intros force u s' H.
    assert (Hc : exists c, checked c = Ok (u, s')).
    { destruct force as [f|]; [rewrite Hforced in H; eauto|].
      destruct (sequential_seed cfg) eqn:Hseq.
      - rewrite Hnone in H by reflexivity. eauto.
      - destruct (Hdraw eq_refl) as [(c & Hc) | (e & He)];
          [rewrite Hc in H; eauto | congruence]. }
    destruct Hc as (c & Hc). unfold checked in Hc.
    destruct (in_window cfg c) eqn:Hw; [|discriminate Hc].
    exists c. split; [congruence|]. unfold in_window in Hw. lia.
  - intros Hseq Hnum Hprior. rewrite (Hnone Hseq). unfold checked.
    exists (spec_sequential_seed cfg (global_seed s)).
    assert (Hw : in_window cfg (spec_sequential_seed cfg (global_seed s)) = true).
    { unfold in_window, spec_sequential_seed.
      destruct Hprior as [-> | (p & -> & Hp)]; [lia|].
      unfold in_window in Hp. destruct (_ <=? p + 1) eqn:E; lia. }
    now rewrite Hw.
Qed.

Lemma seed_selection_witness :
  _reset_global_seed Demo.draw_low None
    (Demo.env (Demo.car 50 0 false false false) 0 [true] 1)
  = Ok (tt, set_global_seed (Some 5)
              (Demo.env (Demo.car 50 0 false false false) 0 [true] 1))
  /\ exists g : Z,
       _reset_global_seed Demo.draw_low None
         (Demo.env (Demo.car 50 0 false false false) 0 [true] 1)
       = Ok (tt, set_global_seed (Some g)
                   (Demo.env (Demo.car 50 0 false false false) 0 [true] 1))
       /\ in_window Demo.cfg g = true.
Proof.
  destruct (seed_selection Demo.draw_low
              (Demo.env (Demo.car 50 0 false false false) 0 [true] 1))
    as (Hseq & _ & _ & Hret).
  split.
  - exact (Hseq eq_refl).
  - apply (Hret eq_refl eq_refl). right. exists 7. split; reflexivity.
Defined.

(** ** Expert-state lookup *)

Lemma py_index_nonneg {A} (a : list A) (i : nat) (x : A) :
  a !! i = Some x -> py_index a (Z.of_nat i) = Ok x.
Proof.
  intros H. pose proof (lookup_lt_Some _ _ _ H) as Hlt. unfold py_index.
  replace ((0 <=? Z.of_nat i) && (Z.of_nat i <? Z.of_nat (List.length a)))
    with true by (symmetry; apply andb_true_iff; lia).
  now rewrite Nat2Z.id, H.
Qed.

Lemma py_index_neg {A} (a : list A) (i : nat) (x : A) :
  a !! i = Some x ->
  py_index a (Z.of_nat i - Z.of_nat (List.length a)) = Ok x.
Proof.
  intros H. pose proof (lookup_lt_Some _ _ _ H) as Hlt. unfold py_index.
  set (n := Z.of_nat (List.length a)).
  replace ((0 <=? Z.of_nat i - n) && (Z.of_nat i - n <? n))
    with false by (symmetry; apply andb_false_iff; lia).
  replace ((- n <=? Z.of_nat i - n) && (Z.of_nat i - n <? 0))
    with true by (symmetry; apply andb_true_iff; lia).
  replace (Z.of_nat i - n + n) with (Z.of_nat i) by lia.
  now rewrite Nat2Z.id, H.
Qed.

Lemma py_index_range {A} (a : list A) (i : Z) (x : A) :
  py_index a i = Ok x ->
  - Z.of_nat (List.length a) <= i < Z.of_nat (List.length a).
Proof.
  unfold py_index.
  destruct ((0 <=? i) && (i <? _)) eqn:E1; [lia|].
  destruct ((_ <=? i) && (i <? 0)) eqn:E2; [lia|discriminate].
Qed.

Lemma elem_of_np_where_from (i k : Z) (mask : list bool) :
  k ∈ np_where_from i mask
  <-> exists j : nat, k = i + Z.of_nat j /\ mask !! j = Some true.
Proof.
  revert i. induction mask as [|b mask IH]; intros i; simpl.
  - split; [intros H; inversion H | intros (j & _ & H); discriminate H].
  - rewrite elem_of_app, IH. split.
    + intros [H | (j & -> & H)].
      * destruct b; [|inversion H]. apply list_elem_of_singleton in H.
        exists 0%nat. split; [lia | reflexivity].
      * exists (S j). split; [lia | exact H].
    + intros ([|j] & -> & H).
      * left. simpl in H. injection H as ->. apply list_elem_of_singleton. lia.
      * right. exists j. split; [lia | exact H].
Qed.

Lemma np_max_spec (a : list Z) (m : Z) :
  np_max a = Ok m <-> m ∈ a /\ forall y, y ∈ a -> y <= m.
Proof.
  destruct a as [|x a]; simpl.
  - split; [discriminate | intros [H _]; inversion H].
  - assert (H : foldr Z.max x a ∈ x :: a
                /\ forall y, y ∈ x :: a -> y <= foldr Z.max x a).
    { induction a as [|z a IH]; simpl.
      - split; [left | intros y Hy; apply list_elem_of_singleton in Hy; lia].
      - destruct IH as [IH1 IH2]. split.
        + destruct (Z.max_spec z (foldr Z.max x a)) as [[_ ->] | [_ ->]].
          * apply elem_of_cons in IH1 as [-> | IH1];
              [left | right; right; exact IH1].
          * right; left.
        + intros y Hy. apply elem_of_cons in Hy as [-> | Hy].
          * specialize (IH2 x (list_elem_of_here _ _)). lia.
          * apply elem_of_cons in Hy as [-> | Hy]; [lia|].
            specialize (IH2 y (list_elem_of_further _ _ _ Hy)). lia. }
    destruct H as [H1 H2]. split.
    + intros [= <-]. now split.
    + intros [Hm Hub]. f_equal.
      specialize (H2 m Hm). specialize (Hub _ H1). lia.
Qed.

Lemma np_max_where_last_valid (mask : list bool) (l : nat) :
  is_last_valid mask l -> np_max (np_where mask) = Ok (Z.of_nat l).
Proof.
  intros [Hl Hlast]. apply np_max_spec. unfold np_where. split.
  - apply elem_of_np_where_from. exists l. split; [lia | exact Hl].
  - intros y Hy. apply elem_of_np_where_from in Hy as (j & -> & Hj).
    destruct (Nat.le_gt_cases j l) as [H | H]; [lia|].
    now destruct (Hlast j H).
Qed.

Lemma np_max_where_no_valid (mask : list bool) :
  (forall j : nat, mask !! j <> Some true) ->
  np_max (np_where mask) = Raise ValueError.
Proof.
  intros Hnone. unfold np_where.
  destruct (np_where_from 0 mask) as [|x a] eqn:E; [reflexivity|].
  assert (Hx : x ∈ np_where_from 0 mask) by (rewrite E; left).
  apply elem_of_np_where_from in Hx as (j & _ & Hj). now destruct (Hnone j).
Qed.

Lemma walk_back_S (fuel : nat) (mask : list bool) (c : Z) :
  walk_back (S fuel) mask c
  = match py_index mask c with
    | Raise e => Some (Raise e)
    | Ok true => Some (Ok c)
    | Ok false =>
        if c - 1 =? 0 then Some (Ok (c - 1)) else walk_back fuel mask (c - 1)
    end.
Proof. reflexivity. Qed.

(** The loop always ends: the bound [walk_back_fuel] is never used up. *)
Lemma walk_back_fuel_enough (mask : list bool) (fuel : nat) (c : Z) :
  (1 <= fuel)%nat ->
  (Z.to_nat (c + Z.of_nat (List.length mask) + 2) <= fuel)%nat ->
  walk_back fuel mask c <> None.
Proof.
  revert c. induction fuel as [|fuel IH]; intros c H1 H2; [lia|].
  simpl. destruct (py_index mask c) as [[|]|e] eqn:E; try discriminate.
  apply py_index_range in E.
  destruct (c - 1 =? 0); [discriminate|].
  apply IH; lia.
Qed.

Lemma walk_back_terminates (mask : list bool) (c : Z) :
  walk_back (walk_back_fuel mask c) mask c <> None.
Proof. apply walk_back_fuel_enough; unfold walk_back_fuel; lia. Qed.

(** From a step of the mask that is not the invalid frame 0, the loop
    resolves the index as the specification says. *)
Lemma walk_back_nonneg (mask : list bool) (k fuel : nat) :
  (k < List.length mask)%nat ->
  (1 <= k)%nat \/ mask !! 0%nat = Some true ->
  (k + 1 <= fuel)%nat ->
  walk_back fuel mask (Z.of_nat k)
  = Some (Ok (Z.of_nat (spec_walk_back mask k))).
Proof.
  revert fuel. induction k as [|k IH]; intros fuel Hk H0 Hf;
    (destruct fuel as [|fuel]; [lia|]).
  - destruct H0 as [H0 | H0]; [lia|]. simpl.
    now rewrite (py_index_nonneg mask 0 true H0).
  - destruct (lookup_lt_is_Some_2 mask (S k) Hk) as [b Hb].
    cbn [walk_back spec_walk_back].
    rewrite (py_index_nonneg mask (S k) b Hb), Hb. simpl default.
    destruct b; [reflexivity|].
    replace (Z.of_nat (S k) - 1) with (Z.of_nat k) by lia.
    destruct (Z.of_nat k =? 0) eqn:E.
    + assert (k = 0%nat) as -> by lia. reflexivity.
    + apply IH; lia.
Qed.

(** Below index 0 the loop runs over the frames from the end of the mask,
    and stops at the last valid one. *)
Lemma walk_back_negative (mask : list bool) (l d fuel : nat) :
  is_last_valid mask l ->
  (l + d < List.length mask)%nat ->
  (d + 1 <= fuel)%nat ->
  walk_back fuel mask (Z.of_nat (l + d) - Z.of_nat (List.length mask))
  = Some (Ok (Z.of_nat l - Z.of_nat (List.length mask))).
Proof.
  intros [Hl Hlast]. revert fuel.
  induction d as [|d IH]; intros fuel Hd Hf; (destruct fuel as [|fuel]; [lia|]).
  - rewrite Nat.add_0_r. simpl. now rewrite (py_index_neg mask l true Hl).
  - destruct (lookup_lt_is_Some_2 mask (l + S d) Hd) as [b Hb].
    cbn [walk_back]. rewrite (py_index_neg mask (l + S d) b Hb).
    destruct b; [destruct (Hlast (l + S d)%nat); [lia | exact Hb]|].
    replace (Z.of_nat (l + S d) - Z.of_nat (List.length mask) - 1)
      with (Z.of_nat (l + d) - Z.of_nat (List.length mask)) by lia.
    destruct (_ =? 0) eqn:E; [apply Z.eqb_eq in E; lia|].
    apply IH; lia.
Qed.

(** Lines 266-277 for a step that is not the invalid frame 0: the index is
    the one the specification describes. *)
Lemma expert_current_step_spec (mask : list bool) (l step : nat) :
  is_last_valid mask l ->
  (1 <= step)%nat \/ mask !! 0%nat = Some true ->
  expert_current_step mask (Z.of_nat step)
  = Ok (Z.of_nat (spec_resolve mask l step)).
Proof.
  intros Hl H0. unfold expert_current_step, spec_resolve.
  rewrite (np_max_where_last_valid mask l Hl).
  pose proof (lookup_lt_Some _ _ _ (proj1 Hl)) as Hlen.
  assert (Hc : clamp_step (Z.of_nat l) (Z.of_nat step)
               = Z.of_nat (Nat.min step l)).
  { unfold clamp_step. destruct (_ <? _) eqn:E; lia. }
  rewrite Hc. unfold walk_back_loop.
  rewrite (walk_back_nonneg mask (Nat.min step l)); [reflexivity | lia | |].
  - destruct H0 as [H0 | H0]; [|now right].
    destruct l as [|l]; [right; exact (proj1 Hl) | left; lia].
  - unfold walk_back_fuel. lia.
Qed.

(** Lines 266-277 at step 0 when frame 0 is invalid: the index runs below 0
    and stops at the last valid frame, counted from the end. *)
Lemma expert_current_step_wraps (mask : list bool) (l : nat) :
  is_last_valid mask l ->
  mask !! 0%nat = Some false ->
  expert_current_step mask 0
  = Ok (Z.of_nat l - Z.of_nat (List.length mask)).
Proof.
  intros Hl H0. unfold expert_current_step.
  rewrite (np_max_where_last_valid mask l Hl).
  pose proof (lookup_lt_Some _ _ _ (proj1 Hl)) as Hlen.
  assert (Hc : clamp_step (Z.of_nat l) 0 = 0).
  { unfold clamp_step. destruct (_ <? _) eqn:E; lia. }
  rewrite Hc. unfold walk_back_loop, walk_back_fuel. rewrite walk_back_S.
  pose proof (py_index_nonneg mask 0 false H0) as P0.
  change (Z.of_nat 0) with 0 in P0. rewrite P0.
  change (0 - 1 =? 0) with false. cbv iota.
  replace (0 - 1) with
    (Z.of_nat (l + (List.length mask - 1 - l)) - Z.of_nat (List.length mask))
    by lia.
  rewrite (walk_back_negative mask l _ _ Hl); [reflexivity | lia | lia].
Qed.

Lemma spec_walk_back_le (mask : list bool) (k : nat) :
  (spec_walk_back mask k <= k)%nat.
Proof.
  induction k as [|k IH]; simpl; [lia|].
  destruct (default false (mask !! S k)); lia.
Qed.

(** With a valid frame in the mask and a step that is not negative, the
    loop returns an index of the mask, possibly counted from the end. *)
Lemma walk_back_loop_in_range (mask : list bool) (l : nat) (step : Z) :
  is_last_valid mask l ->
  0 <= step ->
  exists (i : Z) (j : nat),
    walk_back_loop mask (clamp_step (Z.of_nat l) step) = Ok i
    /\ (j < List.length mask)%nat
    /\ (i = Z.of_nat j \/ i = Z.of_nat j - Z.of_nat (List.length mask)).
Proof.
  intros Hl Hstep.
  pose proof (lookup_lt_Some _ _ _ (proj1 Hl)) as Hlen.
  pose proof (np_max_where_last_valid mask l Hl) as Hmax.
  destruct (lookup_lt_is_Some_2 mask 0%nat ltac:(lia)) as [b0 Hb0].
  destruct (decide ((1 <= Z.to_nat step)%nat \/ mask !! 0%nat = Some true))
    as [H | H].
  - pose proof (expert_current_step_spec mask l (Z.to_nat step) Hl H) as E.
    unfold expert_current_step in E. rewrite Hmax, Z2Nat.id in E by lia.
    exists (Z.of_nat (spec_resolve mask l (Z.to_nat step))),
      (spec_resolve mask l (Z.to_nat step)).
    split; [exact E|]. split; [|now left].
    unfold spec_resolve.
    pose proof (spec_walk_back_le mask (Nat.min (Z.to_nat step) l)). lia.
  - assert (step = 0) as -> by lia.
    assert (b0 = false) as -> by (destruct b0; [destruct H; now right | reflexivity]).
    pose proof (expert_current_step_wraps mask l Hl Hb0) as E.
    unfold expert_current_step in E. rewrite Hmax in E.
    exists (Z.of_nat l - Z.of_nat (List.length mask)), l.
    split; [exact E|]. split; [lia | now right].
Qed.

Lemma py_index_in_range {A} (a : list A) (n : nat) (i : Z) (j : nat) :
  List.length a = n ->
  (j < n)%nat ->
  i = Z.of_nat j \/ i = Z.of_nat j - Z.of_nat n ->
  exists x : A, py_index a i = Ok x.
Proof.
  intros <- Hj Hi.
  destruct (lookup_lt_is_Some_2 a j Hj) as [x Hx]. exists x.
  destruct Hi as [-> | ->]; [now apply py_index_nonneg | now apply py_index_neg].
Qed.

(** ** Reward *)

Lemma lift_ok {A} (r : result A) (a : A) (s : Env) :
  r = Ok a -> lift r s = Ok (a, s).
Proof. now intros ->. Qed.

Lemma write_lateral_dist_ok (s : Env) (vehicle_id : string) (o : Observation)
    (x : Q) :
  observations s !! vehicle_id = Some o ->
  write_lateral_dist vehicle_id x s
  = Ok (tt, set_observations
              (<[vehicle_id := {| lateral_dist := x |}]> (observations s)) s).
Proof.
  intros H. unfold write_lateral_dist, bind, gets, lift, dict_get, modify.
  now rewrite H.
Qed.

Lemma get_scenario_ok (s : Env) (g : Z) (data : Scenario) :
  global_seed s = Some g -> data_manager s !! g = Some data ->
  get_scenario s = Ok (data, s).
Proof.
  intros Hg Hd. unfold get_scenario, bind, gets, lift, dict_get.
  now rewrite Hg, Hd.
Qed.

(** ** What the evaluators leave unchanged *)

Lemma bind_inv {A B} (m : M A) (k : A -> M B) (s s' : Env) (b : B) :
  bind m k s = Ok (b, s') ->
  exists (a : A) (s1 : Env), m s = Ok (a, s1) /\ k a s1 = Ok (b, s').
Proof.
  unfold bind. destruct (m s) as [[a s1]|e]; [|discriminate].
  intros H. now exists a, s1.
Qed.

Lemma preserves_ret {A} (a : A) : preserves_state (ret a).
Proof. intros s x s' [= _ <-]. reflexivity. Qed.

Lemma preserves_gets {A} (f : Env -> A) : preserves_state (gets f).
Proof. intros s x s' [= _ <-]. reflexivity. Qed.

Lemma preserves_lift {A} (r : result A) : preserves_state (lift r).
Proof. intros s x s'. unfold lift. destruct r; [|discriminate]. now intros [= _ <-]. Qed.

Lemma preserves_raise {A} (e : exn) : preserves_state (@raise A e).
Proof. intros s x s'. discriminate. Qed.

Lemma preserves_bind {A B} (m : M A) (k : A -> M B) :
  preserves_state m -> (forall a, preserves_state (k a)) ->
  preserves_state (bind m k).
Proof.
  intros Hm Hk s b s' H. apply bind_inv in H as (a & s1 & H1 & H2).
  apply Hm in H1 as ->. now apply Hk in H2.
Qed.

(** Proves that a computation built from reads leaves the state alone. *)
Create HintDb frame.
#[local] Hint Resolve preserves_ret preserves_gets preserves_lift
  preserves_raise : frame.

Ltac preserves :=
  repeat first
    [ progress cbv zeta
    | solve [auto with frame]
    | apply preserves_bind; [|intros ?]
    | match goal with
      | |- preserves_state (if ?c then _ else _) => destruct c
      | |- preserves_state (match ?x with _ => _ end) => destruct x
      end ].

Lemma preserves_get_vehicle (vehicle_id : string) :
  preserves_state (get_vehicle vehicle_id).
Proof. unfold get_vehicle. preserves. Qed.

Lemma preserves_is_arrive_destination (v : Vehicle) :
  preserves_state (_is_arrive_destination v).
Proof. unfold _is_arrive_destination. preserves. Qed.

Lemma preserves_is_out_of_road (v : Vehicle) :
  preserves_state (_is_out_of_road v).
Proof.
  unfold _is_out_of_road, object_to_agent, read_lateral_dist. preserves.
Qed.

#[local] Hint Resolve preserves_get_vehicle preserves_is_arrive_destination
  preserves_is_out_of_road : frame.

Lemma preserves_cost_function (vehicle_id : string) :
  preserves_state (cost_function vehicle_id).
Proof. unfold cost_function. preserves. Qed.

Lemma writes_log_only_preserves {A} (m : M A) :
  preserves_state m -> writes_log_only m.
Proof. intros H s a s' E. apply H in E as ->. now destruct s. Qed.

Lemma writes_log_only_bind {A B} (m : M A) (k : A -> M B) :
  writes_log_only m -> (forall a, writes_log_only (k a)) ->
  writes_log_only (bind m k).
Proof.
  intros Hm Hk s b s' H. apply bind_inv in H as (a & s1 & H1 & H2).
  apply Hm in H1. apply Hk in H2. rewrite H2, H1. reflexivity.
Qed.

Lemma writes_log_only_logging_info (msg : string) :
  writes_log_only (logging_info msg).
Proof. intros s a s' [= _ <-]. reflexivity. Qed.

Lemma writes_log_only_done_function (vehicle_id : string) :
  writes_log_only (done_function vehicle_id).
Proof.
  unfold done_function.
  repeat first
    [ progress cbv zeta
    | apply writes_log_only_logging_info
    | apply writes_log_only_preserves; solve [preserves]
    | apply writes_log_only_bind; [|intros ?]
    | match goal with
      | |- writes_log_only (if ?c then _ else _) => destruct c
      | |- writes_log_only (match ?x with _ => _ end) => destruct x
      end ].
Qed.

Lemma write_lateral_dist_inv (vehicle_id : string) (x : Q) (s s' : Env) (u : unit) :
  write_lateral_dist vehicle_id x s = Ok (u, s') ->
  s' = set_observations
         (<[vehicle_id := {| lateral_dist := x |}]> (observations s)) s.
Proof.
  unfold write_lateral_dist, bind, gets, lift, dict_get, modify.
  destruct (observations s !! vehicle_id); [|discriminate].
  now intros [= _ <-].
Qed.

Section RewardProperties.

Variable norm : Point -> Q.
Variable waymo_to_metadrive_vector : Point -> Point.
Variable clip : Q -> Q -> Q -> Q.

(** The expert diagnostics return when the log can be read, change no
    state, and only add the two distances to [step_info]. *)
Lemma expert_diagnostics_ok (data : Scenario) (nv : string) (agent_xy : Point)
    (info : gmap string value) (s : Env) :
  0 <= episode_step s ->
  match tracks data !! nv with
  | Some (TrackOf st) =>
      (exists l : nat, is_last_valid (st_valid st) l)
      /\ List.length (st_position st) = List.length (st_valid st)
  | _ => True
  end ->
  exists info' : gmap string value,
    expert_diagnostics norm waymo_to_metadrive_vector data nv agent_xy info s
    = Ok (info', s)
    /\ forall k : string,
         k <> "distance_error" -> k <> "distance_error_final" ->
         info' !! k = info !! k.
Proof.
  intros Hstep Htrack. unfold expert_diagnostics.
  destruct (tracks data !! nv) as [[|st]|]; try (now exists info).
  destruct Htrack as [(l & Hl) Hlen].
  pose proof (lookup_lt_Some _ _ _ (proj1 Hl)) as Hl_lt.
  rewrite (bind_ok _ _ _ _ _ (lift_ok _ _ s (np_max_where_last_valid _ l Hl))).
  unfold bind at 1, gets at 1.
  destruct (walk_back_loop_in_range (st_valid st) l (episode_step s) Hl Hstep)
    as (i & j & Hi & Hj & Hij).
  rewrite (bind_ok _ _ _ _ _ (lift_ok _ _ s Hi)).
  unfold bind at 1, gets at 1.
  destruct (py_index_in_range (st_position st) _ i j Hlen Hj Hij) as (p & Hp).
  rewrite (bind_ok _ _ _ _ _ (lift_ok _ _ s Hp)).
  destruct (py_index_in_range (st_position st) _ (Z.of_nat l) l Hlen Hl_lt
              (or_introl eq_refl)) as (q & Hq).
  rewrite (bind_ok _ _ _ _ _ (lift_ok _ _ s Hq)).
  eexists. split; [reflexivity|].
  intros k H1 H2. now rewrite !lookup_insert_ne by congruence.
Qed.

Lemma current_lane_ok (v : Vehicle) (cl : Lane) (s : Env) :
  current_lane_of v = Some cl ->
  (if lane_in (lane v) (current_ref_lanes (navigation v))
   then ret (lane v)
   else lift (py_index (current_ref_lanes (navigation v)) 0)) s
  = Ok (cl, s).
Proof.
  unfold current_lane_of. destruct (lane_in _ _).
  - now intros [= ->].
  - destruct (current_ref_lanes (navigation v)) as [|l0 r]; [discriminate|].
    intros [= ->]. apply lift_ok.
    exact (py_index_nonneg (cl :: r) 0 cl eq_refl).
Qed.

Lemma reward_function_run (s : Env) (vehicle_id : string) (v : Vehicle)
    (o : Observation) (cl : Lane) (data : Scenario) :
  agent_ready s vehicle_id v vehicle_id o ->
  current_lane_of v = Some cl ->
  expert_ready s vehicle_id data ->
  let cfg := config s in
  let long_last := fst (local_coordinates cl (last_position v)) in
  let long_now := fst (local_coordinates cl (position v)) in
  let lateral_now := snd (local_coordinates cl (position v)) in
  let lateral_factor :=
    if use_lateral_reward cfg
    then clip (1 - 2 * Qabs lateral_now / 6)%Q 0%Q 1%Q else 1%Q in
  let dense := (0 + driving_reward cfg * (long_now - long_last) * lateral_factor)%Q in
  let new_lat := snd (local_coordinates (current_sdc_route s) (position v)) in
  let s' := set_observations
              (<[vehicle_id := {| lateral_dist := new_lat |}]> (observations s)) s in
  let arrive := arrival_threshold_check (route_completion_of v) in
  let out := out_of_road_decision cfg new_lat v in
  let reward :=
    if arrive then success_reward cfg
    else if out then (- out_of_road_penalty cfg)%Q
    else if crash_vehicle v then (- crash_vehicle_penalty cfg)%Q
    else if crash_object v then (- crash_object_penalty cfg)%Q
    else dense in
  exists info : gmap string value,
    reward_function norm waymo_to_metadrive_vector clip vehicle_id s
    = Ok ((reward, info), s')
    /\ info !! "step_reward" = Some (VFloat dense)
    /\ info !! "track_length"
       = Some (VFloat (length (reference_trajectory (navigation v))))
    /\ info !! "current_distance"
       = Some (VFloat (fst (local_coordinates
                              (reference_trajectory (navigation v)) (position v))))
    /\ info !! "route_completion" = Some (VFloat (route_completion_of v)).
Proof.
  intros (Hv & Hlen & Ha & Ho) Hcl ((g & Hg & Hdata) & Hstep & Htrack).
  intros cfg long_last long_now lateral_now lateral_factor dense new_lat s'
    arrive out reward.
  unfold reward_function.
  rewrite (bind_ok _ _ _ _ _ (get_vehicle_ok _ _ _ Hv)).
  rewrite (bind_ok _ _ _ _ _ (current_lane_ok v cl s Hcl)).
  subst long_last long_now lateral_now.
  destruct (local_coordinates cl (last_position v)) as [ll lal].
  destruct (local_coordinates cl (position v)) as [ln lan].
  cbn [fst snd] in *.
  unfold bind at 1, gets at 1.
  rewrite (bind_ok _ _ _ _ _ (write_lateral_dist_ok s vehicle_id o _ Ho)).
  fold new_lat s'.
  unfold bind at 1, gets at 1.
  change (config s') with cfg. fold lateral_factor dense.
  rewrite (bind_ok _ _ _ _ _ (_is_arrive_destination_ok s' v Hlen)).
  fold arrive.
  assert (Ho' : observations s' !! vehicle_id = Some {| lateral_dist := new_lat |})
    by apply lookup_insert_eq.
  match goal with |- context [bind ?m _ s'] =>
    assert (Hsel : m s' = Ok (reward, s')) end.
  { subst reward. destruct arrive; [reflexivity|].
    rewrite (bind_ok _ _ _ _ _ (_is_out_of_road_ok s' v vehicle_id _ Ha Ho')).
    change (out_of_road_decision (config s') (lateral_dist {| lateral_dist := new_lat |}) v)
      with out.
    now destruct out, (crash_vehicle v), (crash_object v). }
  rewrite (bind_ok _ _ _ _ _ Hsel).
  rewrite (bind_ok _ _ _ _ _ (lift_ok _ _ s' (py_div_ok _ _ Hlen))).
  rewrite (bind_ok _ _ _ _ _ (get_scenario_ok s' g data Hg Hdata)).
  match goal with |- context [expert_diagnostics _ _ ?d ?n ?x ?i] =>
    destruct (expert_diagnostics_ok d n x i s' Hstep Htrack)
      as (info' & Hrun & Hframe) end.
  rewrite (bind_ok _ _ _ _ _ Hrun).
  eexists. split; [reflexivity|].
  repeat split; destruct (_dynamics_mode v);
    rewrite ?lookup_insert_ne by discriminate;
    (rewrite Hframe by discriminate);
    rewrite ?lookup_insert_ne by discriminate;
    apply lookup_insert_eq.
Qed.

(** C8. When the agent, its lane and the expert log can be read,
    [reward_function] returns; the step_reward diagnostic is the dense
    reward driving_reward * (long_now - long_last) * lateral_factor, also
    when the returned reward is a terminal one; and the returned reward is,
    by first match: on arrival, success_reward; else out of road,
    -out_of_road_penalty; else vehicle crash, -crash_vehicle_penalty; else
    object crash, -crash_object_penalty; else the dense reward.  The
    terminal values do not contain the dense reward. *)
Theorem reward_overrides_replace_dense (s : Env) (vehicle_id : string)
    (v : Vehicle) (o : Observation) (cl : Lane) (data : Scenario) :
  agent_ready s vehicle_id v vehicle_id o ->
  current_lane_of v = Some cl ->
  expert_ready s vehicle_id data ->
  let cfg := config s in
  let long_last := fst (local_coordinates cl (last_position v)) in
  let long_now := fst (local_coordinates cl (position v)) in
  let lateral_now := snd (local_coordinates cl (position v)) in
  let lateral_factor :=
    if use_lateral_reward cfg
    then clip (1 - 2 * Qabs lateral_now / 6)%Q 0%Q 1%Q else 1%Q in
  exists (reward dense : Q) (arrive out : bool) (info : gmap string value)
         (s' : Env),
    reward_function norm waymo_to_metadrive_vector clip vehicle_id s
    = Ok ((reward, info), s')
    /\ info !! "step_reward" = Some (VFloat dense)
    /\ (dense == driving_reward cfg * (long_now - long_last) * lateral_factor)%Q
    /\ _is_arrive_destination v s' = Ok (arrive, s')
    /\ _is_out_of_road v s' = Ok (out, s')
    /\ reward = (if arrive then success_reward cfg
                 else if out then (- out_of_road_penalty cfg)%Q
                 else if crash_vehicle v then (- crash_vehicle_penalty cfg)%Q
                 else if crash_object v then (- crash_object_penalty cfg)%Q
                 else dense)
    /\ arrive = arrival_threshold_check (route_completion_of v)
    /\ out = out_of_road_decision cfg
               (snd (local_coordinates (current_sdc_route s) (position v))) v.
Proof.
  intros Hr Hcl He cfg long_last long_now lateral_now lateral_factor.
  destruct (reward_function_run s vehicle_id v o cl data Hr Hcl He)
    as (info & Hrun & L1 & _).
  destruct Hr as (Hv & Hlen & Ha & Ho).
  eexists _, (0 + driving_reward cfg * (long_now - long_last) * lateral_factor)%Q,
    (arrival_threshold_check (route_completion_of v)),
    (out_of_road_decision cfg
       (snd (local_coordinates (current_sdc_route s) (position v))) v),
    info, _.
  split; [exact Hrun|].
  split; [exact L1|]. split; [apply Qplus_0_l|].
  split; [apply _is_arrive_destination_ok, Hlen|].
  split; [|repeat split].
  set (written := snd (local_coordinates (current_sdc_route s) (position v))).
  set (s' := set_observations
               (<[vehicle_id := {| lateral_dist := written |}]> (observations s)) s).
  assert (Ho' : observations s' !! vehicle_id = Some {| lateral_dist := written |})
    by apply lookup_insert_eq.
  exact (_is_out_of_road_ok s' v vehicle_id _ Ha Ho').
Qed.

Lemma preserves_get_scenario : preserves_state get_scenario.
Proof. unfold get_scenario. preserves. Qed.

Lemma preserves_expert_diagnostics (data : Scenario) (nv : string)
    (agent_xy : Point) (info : gmap string value) :
  preserves_state
    (expert_diagnostics norm waymo_to_metadrive_vector data nv agent_xy info).
Proof. unfold expert_diagnostics. preserves. Qed.

(** Whenever the reward evaluation returns, the state it leaves is the
    state it found with the agent's cached lateral distance replaced. *)
Lemma reward_function_frame (s s1 : Env) (vehicle_id : string) (v : Vehicle)
    (r : Q * gmap string value) :
  vehicles s !! vehicle_id = Some v ->
  reward_function norm waymo_to_metadrive_vector clip vehicle_id s = Ok (r, s1) ->
  s1 = set_observations
         (<[vehicle_id :=
              {| lateral_dist :=
                   snd (local_coordinates (current_sdc_route s) (position v)) |}]>
            (observations s)) s.
Proof.
  intros Hv H. unfold reward_function in H.
  rewrite (bind_ok _ _ _ _ _ (get_vehicle_ok _ _ _ Hv)) in H.
  apply bind_inv in H as (cl & s0 & Hcl & H).
  match type of Hcl with
  | ?m _ = Ok _ => assert (Pl : preserves_state m) by preserves
  end.
  apply Pl in Hcl as ->.
  destruct (local_coordinates cl (last_position v)) as [ll lal].
  destruct (local_coordinates cl (position v)) as [ln lan].
  apply bind_inv in H as (route & s0 & [= <- <-] & H).
  apply bind_inv in H as (u & s2 & Hw & H).
  apply write_lateral_dist_inv in Hw as ->.
  cbv beta in H.
  pose proof preserves_get_scenario. pose proof preserves_expert_diagnostics.
  match type of H with
  | ?m ?st = Ok _ => assert (P : preserves_state m) by preserves
  end.
  now apply P in H.
Qed.

(** C10. Whenever they return, the done evaluation has changed nothing but
    the log, the cost evaluation has changed nothing, and the reward
    evaluation has changed nothing but the agent's cached lateral distance,
    which has become the route-relative lateral offset of the current
    position.  When the agent, its lane and the expert log can be read, the
    three evaluations return, and the out-of-road test reads the cached
    value: evaluated before the reward evaluation it uses the value found
    in the state, and in any later state holding the observations that the
    reward evaluation left, it uses the value written by it. *)
Theorem lateral_cache_frame (s : Env) (vehicle_id : string) (v : Vehicle) :
  vehicles s !! vehicle_id = Some v ->
  let written := snd (local_coordinates (current_sdc_route s) (position v)) in
  let cached := <[vehicle_id := {| lateral_dist := written |}]> (observations s) in
  (forall r s1, done_function vehicle_id s = Ok (r, s1) ->
                s1 = set_log (log s1) s /\ observations s1 = observations s)
  /\ (forall r s1, cost_function vehicle_id s = Ok (r, s1) -> s1 = s)
  /\ (forall r s1,
        reward_function norm waymo_to_metadrive_vector clip vehicle_id s
        = Ok (r, s1) ->
        s1 = set_observations cached s)
  /\ (forall (o : Observation) (cl : Lane) (data : Scenario),
        agent_ready s vehicle_id v vehicle_id o ->
        current_lane_of v = Some cl ->
        expert_ready s vehicle_id data ->
        (exists r s1, done_function vehicle_id s = Ok (r, s1))
        /\ (exists r, cost_function vehicle_id s = Ok (r, s))
        /\ (exists r,
              reward_function norm waymo_to_metadrive_vector clip vehicle_id s
              = Ok (r, set_observations cached s))
        /\ _is_out_of_road v s
           = Ok (out_of_road_decision (config s) (lateral_dist o) v, s)
        /\ (forall (s2 : Env) (v2 : Vehicle),
              observations s2 = cached ->
              agent_manager s2 !! name v2 = Some vehicle_id ->
              _is_out_of_road v2 s2
              = Ok (out_of_road_decision (config s2) written v2, s2))).
Proof.
  intros Hv written cached. split; [|split; [|split]].
  - intros r s1 H. apply writes_log_only_done_function in H.
    split; [exact H | now rewrite H].
  - intros r s1 H. now apply preserves_cost_function in H.
  - intros r s1 H. exact (reward_function_frame s s1 vehicle_id v r Hv H).
  - intros o cl data Hr Hcl He.
    destruct (done_function_run s vehicle_id v vehicle_id o Hr) as (i1 & H1 & _).
    destruct (cost_first_match_run s vehicle_id v vehicle_id o Hr) as (r2 & H2).
    destruct (reward_function_run s vehicle_id v o cl data Hr Hcl He)
      as (i3 & H3 & _).
    destruct Hr as (_ & Hlen & Ha & Ho).
    split; [eexists _, _; exact H1|].
    split; [exists r2; exact H2|].
    split; [eexists; exact H3|].
    split; [exact (_is_out_of_road_ok s v vehicle_id o Ha Ho)|].
    intros s2 v2 Hobs Ha2.
    apply (_is_out_of_road_ok s2 v2 vehicle_id {| lateral_dist := written |} Ha2).
    rewrite Hobs. apply lookup_insert_eq.
Qed.

End RewardProperties.

Lemma demo_expert_ready (v : Vehicle) (d : Q) (mask : list bool) (step : Z)
    (l : nat) :
  is_last_valid mask l ->
  0 <= step ->
  expert_ready (Demo.env v d mask step) "default_agent" (Demo.scenario mask).
Proof.
  intros Hl Hstep. unfold expert_ready. split; [|split; [exact Hstep|]].
  - exists 7. split; [reflexivity | apply lookup_singleton_eq].
  - change (native_vid "default_agent" (Demo.scenario mask)) with "ego".
    unfold Demo.scenario; cbn [tracks]. rewrite lookup_singleton_eq.
    unfold Demo.track. split; [exists l; exact Hl|].
    cbn [st_position st_valid]. unfold Demo.ramp.
    now rewrite length_map, length_seq.
Defined.

Lemma demo_last_valid_0 : is_last_valid [true] 0.
Proof. split; [reflexivity | intros [|j] Hj; [lia | discriminate]]. Defined.

Lemma reward_overrides_replace_dense_witness :
  exists (dense : Q) (info : gmap string value) (s' : Env),
    reward_function Demo.norm1 Demo.flip_y Demo.clip "default_agent"
      (Demo.env (Demo.car 97 0 true false false) 0 [true] 1)
    = Ok ((10%Q, info), s')
    /\ info !! "step_reward" = Some (VFloat dense)
    /\ (dense == 1)%Q.
Proof.
  destruct (reward_overrides_replace_dense Demo.norm1 Demo.flip_y Demo.clip
              (Demo.env (Demo.car 97 0 true false false) 0 [true] 1)
              "default_agent" (Demo.car 97 0 true false false)
              {| lateral_dist := 0 |} (Demo.straight 1 100)
              (Demo.scenario [true])
              (demo_ready (Demo.car 97 0 true false false) 0 [true] 1
                 eq_refl eq_refl)
              eq_refl
              (demo_expert_ready (Demo.car 97 0 true false false) 0 [true] 1 0
                 demo_last_valid_0 ltac:(lia)))
    as (reward & dense & arrive & out & info & s' & Hrun & L1 & Hd & _ & _ & Hrw
        & Harr & Hout).
  exists dense, info, s'. rewrite Hrun.
  assert (arrive = true) as -> by (rewrite Harr; reflexivity).
  split; [now rewrite Hrw|]. split; [exact L1|].
  rewrite Hd. reflexivity.
Defined.

Lemma lateral_cache_frame_witness :
  exists r : Q * gmap string value,
    reward_function Demo.norm1 Demo.flip_y Demo.clip "default_agent"
      (Demo.env (Demo.car 50 3 false false false) 0 [true] 1)
    = Ok (r, Demo.env (Demo.car 50 3 false false false) 3 [true] 1).
Proof.
  destruct (lateral_cache_frame Demo.norm1 Demo.flip_y Demo.clip
              (Demo.env (Demo.car 50 3 false false false) 0 [true] 1)
              "default_agent" (Demo.car 50 3 false false false)
              (lookup_singleton_eq _ _))
    as (_ & _ & _ & Hready).
  destruct (Hready {| lateral_dist := 0 |} (Demo.straight 1 100)
              (Demo.scenario [true])
              (demo_ready (Demo.car 50 3 false false false) 0 [true] 1
                 eq_refl eq_refl)
              eq_refl
              (demo_expert_ready (Demo.car 50 3 false false false) 0 [true] 1 0
                 demo_last_valid_0 ltac:(lia)))
    as (_ & _ & (r & Hrun) & _).
  exists r. rewrite Hrun. reflexivity.
Defined.

(** ** The expert lookup at its two boundaries *)

(** With no valid frame in the mask, [np.max] has nothing to reduce and
    the diagnostics raise. *)
Lemma expert_diagnostics_no_valid (norm : Point -> Q) (w2m : Point -> Point)
    (data : Scenario) (nv : string) (agent_xy : Point)
    (info : gmap string value) (st : TrackState) (s : Env) :
  tracks data !! nv = Some (TrackOf st) ->
  (forall j : nat, st_valid st !! j <> Some true) ->
  expert_diagnostics norm w2m data nv agent_xy info s = Raise ValueError.
Proof.
  intros Ht Hnone. unfold expert_diagnostics. rewrite Ht.
  apply bind_raise. unfold lift.
  now rewrite (np_max_where_no_valid _ Hnone).
Qed.

(** C1, at step 0 of a track whose frame 0 is invalid (mask
    [0,1,1,0]): the loop decrements the index to -1 before it tests for 0,
    runs over the frames from the end of the mask and stops at -2, that is
    at frame 2, the last valid one; the position read is position[2] (the
    distance to the agent at the origin is 2), where the specified resolution is
    index 0 and position[0] (distance 0).  At every other step, and at
    step 0 when frame 0 is valid, the index is the specified one
    ([expert_current_step_spec]); the specification's example, mask
    [1,1,0,0] and step 3, resolves to 1. *)
Theorem expert_step_zero_reads_last_valid :
  expert_current_step [false; true; true; false] 0 = Ok (-2)
  /\ py_index (Demo.ramp 4) (-2) = Ok (2%Q, 0%Q, 0%Q)
  /\ py_index (Demo.ramp 4) 0 = Ok (0%Q, 0%Q, 0%Q)
  /\ spec_resolve [false; true; true; false] 2 0 = 0%nat
  /\ diagnostic "distance_error"
       (reward_function Demo.norm1 Demo.flip_y Demo.clip "default_agent"
          (Demo.env (Demo.car 0 0 false false false) 0
             [false; true; true; false] 0))
     = Some (VFloat 2)
  /\ expert_current_step [true; true; false; false] 3 = Ok 1.
Proof. repeat split; vm_compute; reflexivity. Qed.

(** C2, on a track without a valid frame (mask [0,0]): the reward
    evaluation does not return; [np.max] raises [ValueError] on the empty
    array of valid indices, before the loop is reached. *)
Theorem all_invalid_mask_raises :
  np_max (np_where [false; false]) = Raise ValueError
  /\ reward_function Demo.norm1 Demo.flip_y Demo.clip "default_agent"
       (Demo.env (Demo.car 0 0 false false false) 0 [false; false] 1)
     = Raise ValueError.
Proof. split; vm_compute; reflexivity. Qed.

(** * Further properties of the evaluators *)

(** ** Missing keys and empty lane lists *)

Lemma get_vehicle_missing (s : Env) (vehicle_id : string) :
  vehicles s !! vehicle_id = None -> get_vehicle vehicle_id s = Raise KeyError.
Proof. intros H. unfold get_vehicle, bind, gets, lift, dict_get. now rewrite H. Qed.

(** X1. An agent id that is not in [self.vehicles] makes the done, cost and
    reward evaluations raise [KeyError]. *)
Theorem unknown_vehicle_raises (norm : Point -> Q) (w2m : Point -> Point)
    (clip : Q -> Q -> Q -> Q) (s : Env) (vehicle_id : string) :
  vehicles s !! vehicle_id = None ->
  done_function vehicle_id s = Raise KeyError
  /\ cost_function vehicle_id s = Raise KeyError
  /\ reward_function norm w2m clip vehicle_id s = Raise KeyError.
Proof.
  intros H. pose proof (get_vehicle_missing s vehicle_id H) as Hg.
  repeat split; apply bind_raise; exact Hg.
Qed.

Lemma unknown_vehicle_raises_witness :
  done_function "ghost" (Demo.env (Demo.car 50 0 false false false) 0 [true] 1)
  = Raise KeyError.
Proof.
  exact (proj1 (unknown_vehicle_raises Demo.norm1 Demo.flip_y Demo.clip
                  (Demo.env (Demo.car 50 0 false false false) 0 [true] 1)
                  "ghost"
                  (lookup_singleton_ne "default_agent" "ghost" _
                     ltac:(discriminate)))).
Defined.

(** X2. The reward evaluation of a known vehicle raises [IndexError] when
    the vehicle's lane is not a reference lane and there is no reference
    lane to fall back to, and [KeyError] when, with a lane found, no
    observation is stored under the agent id. *)
Theorem reward_function_lane_and_observation_errors (norm : Point -> Q)
    (w2m : Point -> Point) (clip : Q -> Q -> Q -> Q) (s : Env)
    (vehicle_id : string) (v : Vehicle) :
  vehicles s !! vehicle_id = Some v ->
  (current_ref_lanes (navigation v) = [] ->
   reward_function norm w2m clip vehicle_id s = Raise IndexError)
  /\ (forall cl : Lane,
        current_lane_of v = Some cl ->
        observations s !! vehicle_id = None ->
        reward_function norm w2m clip vehicle_id s = Raise KeyError).
Proof.
  intros Hv. split.
  - intros Hnil. unfold reward_function.
    rewrite (bind_ok _ _ _ _ _ (get_vehicle_ok _ _ _ Hv)).
    apply bind_raise. now rewrite Hnil.
  - intros cl Hcl Hobs. unfold reward_function.
    rewrite (bind_ok _ _ _ _ _ (get_vehicle_ok _ _ _ Hv)).
    rewrite (bind_ok _ _ _ _ _ (current_lane_ok v cl s Hcl)).
    destruct (local_coordinates cl (last_position v)) as [ll lal].
    destruct (local_coordinates cl (position v)) as [ln lan].
    unfold bind at 1, gets at 1. apply bind_raise.
    unfold write_lateral_dist. unfold bind at 1, gets at 1.
    apply bind_raise. unfold lift, dict_get. now rewrite Hobs.
Qed.

Lemma reward_function_lane_and_observation_errors_witness :
  reward_function Demo.norm1 Demo.flip_y Demo.clip "default_agent"
    (Demo.env lost_car 0 [true] 1)
  = Raise IndexError.
Proof.
  exact (proj1 (reward_function_lane_and_observation_errors
                  Demo.norm1 Demo.flip_y Demo.clip
                  (Demo.env lost_car 0 [true] 1) "default_agent" lost_car
                  (lookup_singleton_eq _ _))
           eq_refl).
Defined.

(** ** The two modes of the out-of-road test *)

Lemma object_to_agent_missing (s : Env) (n : string) :
  agent_manager s !! n = None -> object_to_agent n s = Raise KeyError.
Proof. intros H. unfold object_to_agent, bind, gets, lift, dict_get. now rewrite H. Qed.

Lemma read_lateral_dist_missing (s : Env) (a : string) :
  observations s !! a = None -> read_lateral_dist a s = Raise KeyError.
Proof.
  intros H. unfold read_lateral_dist, bind, gets, lift, dict_get. now rewrite H.
Qed.

(** X3. In strict mode (relax_out_of_road_done off) the out-of-road test
    is sidewalk or yellow line or white line.  Without out_of_route_done it
    looks up neither the agent nor its observation, so it returns in every
    state.  With out_of_route_done it looks up the agent name first
    ([KeyError] when unknown) and reads the cached lateral distance only
    when no line or sidewalk flag is set: with a flag set it returns true
    even without an observation, without one the answer is |lateral| > 10,
    or [KeyError] when the observation is missing. *)
Theorem strict_out_of_road_lookups (s : Env) (v : Vehicle) :
  relax_out_of_road_done (config s) = false ->
  let lines := crash_sidewalk v || on_yellow_continuous_line v
               || on_white_continuous_line v in
  (out_of_route_done (config s) = false -> _is_out_of_road v s = Ok (lines, s))
  /\ (out_of_route_done (config s) = true ->
      (agent_manager s !! name v = None -> _is_out_of_road v s = Raise KeyError)
      /\ (forall a : string,
            agent_manager s !! name v = Some a ->
            (lines = true -> _is_out_of_road v s = Ok (true, s))
            /\ (lines = false -> observations s !! a = None ->
                _is_out_of_road v s = Raise KeyError)
            /\ (lines = false -> forall o, observations s !! a = Some o ->
                _is_out_of_road v s
                = Ok (Qltb 10 (Qabs (lateral_dist o)), s)))).
Proof.
  intros Hrelax lines.
  assert (E : _is_out_of_road v s
              = (if out_of_route_done (config s)
                 then bind (object_to_agent (name v))
                        (fun agent_name =>
                           if lines then ret true
                           else bind (read_lateral_dist agent_name)
                                  (fun d => ret (Qltb 10 (Qabs d))))
                 else ret lines) s).
  { unfold _is_out_of_road. unfold bind at 1. unfold gets at 1.
    now rewrite Hrelax. }
  rewrite E. clear E. split.
  - now intros ->.
  - intros ->. split.
    + intros Hnone. apply bind_raise, object_to_agent_missing, Hnone.
    + intros a Ha. rewrite (bind_ok _ _ _ _ _ (object_to_agent_ok _ _ _ Ha)).
      split; [now intros ->|]. split.
      * intros -> Hnone. apply bind_raise, read_lateral_dist_missing, Hnone.
      * intros -> o Ho.
        now rewrite (bind_ok _ _ _ _ _ (read_lateral_dist_ok _ _ _ Ho)).
Qed.

Lemma strict_out_of_road_lookups_witness :
  _is_out_of_road (line_car false false true)
    (set_config (strict_cfg false)
       (set_observations ∅ (Demo.env (line_car false false true) 0 [true] 1)))
  = Ok (true,
        set_config (strict_cfg false)
          (set_observations ∅ (Demo.env (line_car false false true) 0 [true] 1))).
Proof.
  exact (proj1 (strict_out_of_road_lookups
                  (set_config (strict_cfg false)
                     (set_observations ∅
                        (Demo.env (line_car false false true) 0 [true] 1)))
                  (line_car false false true) eq_refl)
           eq_refl).
Defined.

(** X4. In relaxed mode (relax_out_of_road_done on) the out-of-road test
    always looks up the agent and its cached lateral distance first: it
    raises [KeyError] for an unknown object name or a missing observation,
    also when the vehicle is on a yellow line or the sidewalk. *)
Theorem relaxed_out_of_road_needs_cache (s : Env) (v : Vehicle) :
  relax_out_of_road_done (config s) = true ->
  (agent_manager s !! name v = None -> _is_out_of_road v s = Raise KeyError)
  /\ (forall a : string,
        agent_manager s !! name v = Some a ->
        observations s !! a = None ->
        _is_out_of_road v s = Raise KeyError).
Proof.
  intros Hrelax.
  assert (E : _is_out_of_road v s
              = bind (object_to_agent (name v))
                  (fun agent_name =>
                     bind (read_lateral_dist agent_name)
                       (fun d =>
                          ret (Qltb 10 (Qabs d) || on_yellow_continuous_line v
                               || crash_sidewalk v))) s).
  { unfold _is_out_of_road. unfold bind at 1. unfold gets at 1.
    now rewrite Hrelax. }
  rewrite E. clear E. split.
  - intros Hnone. apply bind_raise, object_to_agent_missing, Hnone.
  - intros a Ha Hnone.
    rewrite (bind_ok _ _ _ _ _ (object_to_agent_ok _ _ _ Ha)).
    apply bind_raise, read_lateral_dist_missing, Hnone.
Qed.

Lemma relaxed_out_of_road_needs_cache_witness :
  _is_out_of_road (line_car true true false)
    (set_observations ∅ (Demo.env (line_car true true false) 0 [true] 1))
  = Raise KeyError.
Proof.
  exact (proj2 (relaxed_out_of_road_needs_cache
                  (set_observations ∅
                     (Demo.env (line_car true true false) 0 [true] 1))
                  (line_car true true false) eq_refl)
           "default_agent" (lookup_singleton_eq _ _) (lookup_empty _)).
Defined.

(** X5. The strict test with out_of_route_done is at least as strict as
    the relaxed test: on the same vehicle and cached distance, whenever the
    relaxed test fires, the strict one fires too.  The strict test also
    fires on a continuous white line, which the relaxed test ignores. *)
Theorem strict_refines_relaxed (s : Env) (v : Vehicle) (a : string)
    (o : Observation) (strict : Config) :
  agent_manager s !! name v = Some a ->
  observations s !! a = Some o ->
  relax_out_of_road_done (config s) = true ->
  relax_out_of_road_done strict = false ->
  (out_of_route_done strict = true ->
   _is_out_of_road v s = Ok (true, s) ->
   _is_out_of_road v (set_config strict s) = Ok (true, set_config strict s))
  /\ (on_white_continuous_line v = true ->
      _is_out_of_road v (set_config strict s) = Ok (true, set_config strict s))
  /\ (on_white_continuous_line v = true ->
      on_yellow_continuous_line v = false ->
      crash_sidewalk v = false ->
      (Qabs (lateral_dist o) <= 10)%Q ->
      _is_out_of_road v s = Ok (false, s)).
Proof.
  intros Ha Ho Hrelax Hstrict.
  rewrite (_is_out_of_road_ok s v a o Ha Ho).
  rewrite (_is_out_of_road_ok (set_config strict s) v a o Ha Ho).
  unfold out_of_road_decision. cbn [config set_config].
  rewrite Hrelax, Hstrict. repeat split.
  - intros -> [= H]. f_equal. f_equal.
    destruct (Qltb 10 (Qabs (lateral_dist o))), (on_yellow_continuous_line v),
      (crash_sidewalk v), (on_white_continuous_line v);
      try reflexivity; discriminate H.
  - intros ->. now rewrite !orb_true_r.
  - intros _ -> -> H. apply Qltb_ge in H. now rewrite H.
Qed.

Lemma strict_refines_relaxed_witness :
  _is_out_of_road (line_car false false true)
    (set_config (strict_cfg true)
       (Demo.env (line_car false false true) 0 [true] 1))
  = Ok (true, set_config (strict_cfg true)
                (Demo.env (line_car false false true) 0 [true] 1))
  /\ _is_out_of_road (line_car false false true)
       (Demo.env (line_car false false true) 0 [true] 1)
     = Ok (false, Demo.env (line_car false false true) 0 [true] 1).
Proof.
  destruct (strict_refines_relaxed
              (Demo.env (line_car false false true) 0 [true] 1)
              (line_car false false true) "default_agent"
              {| lateral_dist := 0 |} (strict_cfg true)
              (lookup_singleton_eq _ _) (lookup_singleton_eq _ _)
              eq_refl eq_refl)
    as (_ & Hwhite & Hrelaxed).
  split.
  - exact (Hwhite eq_refl).
  - apply (Hrelaxed eq_refl eq_refl eq_refl). apply Qle_bool_iff. reflexivity.
Defined.

(** ** The shape of [done_info] and the log *)

Lemma done_function_run_info (s : Env) (vehicle_id : string) (v : Vehicle)
    (a : string) (o : Observation) :
  agent_ready s vehicle_id v a o ->
  let rc := route_completion_of v in
  let arrive := arrival_threshold_check rc || done_inline_arrival_check rc in
  let out := out_of_road_decision (config s) (lateral_dist o) v
             || done_inline_off_route_check rc in
  let cv := crash_vehicle v && crash_vehicle_done (config s) in
  let co := crash_object v in
  let cb := crash_building v in
  let init : gmap string bool :=
    <["crash_vehicle" := false]> (<["crash_object" := false]>
      (<["crash_building" := false]> (<["out_of_road" := false]>
        (<["arrive_dest" := false]> ∅)))) in
  done_function vehicle_id s
  = Ok ((arrive || out || cv || co || cb,
         <["crash" := cv || co || cb]>
           (set_flag cb "crash_building"
              (set_flag co "crash_object"
                 (set_flag cv "crash_vehicle"
                    (set_flag out "out_of_road"
                       (set_flag arrive "arrive_dest" init)))))),
        set_log (log s ++ done_messages arrive out cv co cb) s).
Proof.
  intros (Hv & Hlen & Ha & Ho) rc arrive out cv co cb init.
  unfold done_function.
  rewrite (bind_ok _ _ _ _ _ (get_vehicle_ok _ _ _ Hv)).
  pose proof (_is_arrive_destination_ok s v Hlen) as Harr.
  fold rc in Harr.
  assert (Hrc : py_div (fst (local_coordinates (reference_trajectory (navigation v))
                               (position v)))
                  (length (reference_trajectory (navigation v))) = Ok rc)
    by (apply py_div_ok, Hlen).
  destruct (local_coordinates (reference_trajectory (navigation v)) (position v))
    as [long lat]; simpl in Hrc.
  unfold bind at 1. unfold lift at 1. rewrite Hrc.
  rewrite (bind_ok _ _ _ _ _ Harr).
  fold arrive init.
  set (od := out_of_road_decision (config s) (lateral_dist o) v) in *.
  rewrite run_flag; cbv beta iota.
  rewrite (bind_ok _ _ _ _ _ (_is_out_of_road_log_if _ _ _ _ _ _ Ha Ho)).
  fold od out.
  rewrite run_flag; cbv beta iota.
  unfold bind at 1, gets at 1. rewrite !config_log_if. fold cv.
  rewrite run_flag; cbv beta iota. fold co.
  rewrite run_flag; cbv beta iota. fold cb.
  rewrite run_flag; cbv beta iota.
  rewrite done_log. fold (done_messages arrive out cv co cb).
  unfold TerminationState.SUCCESS, TerminationState.OUT_OF_ROAD,
    TerminationState.CRASH_VEHICLE, TerminationState.CRASH_OBJECT,
    TerminationState.CRASH_BUILDING, TerminationState.CRASH.
  match goal with |- context [dict_get ?m "crash_vehicle"] =>
    set (info5 := m) end.
  assert (L3 : info5 !! "crash_vehicle" = Some cv) by (subst info5; flag_lookup).
  assert (L4 : info5 !! "crash_object" = Some co) by (subst info5; flag_lookup).
  assert (L5 : info5 !! "crash_building" = Some cb) by (subst info5; flag_lookup).
  clearbody info5 arrive out cv co cb.
  unfold bind, lift, dict_get, ret.
  rewrite L3. destruct cv; [| rewrite L4; destruct co; [| rewrite L5]];
    destruct arrive, out, cb; try destruct co; reflexivity.
Qed.

Lemma dom_set_flag (c : bool) (k : string) (m : gmap string bool)
    (K : gset string) :
  dom m = K -> k ∈ K -> dom (set_flag c k m) = K.
Proof.
  intros <- H. destruct c; [|reflexivity]. unfold set_flag.
  rewrite dom_insert_L. apply subseteq_union_1_L, singleton_subseteq_l, H.
Qed.

(** X6. [done_info] has a fixed shape: whatever the flags, its keys are
    exactly arrive_dest, out_of_road, crash_vehicle, crash_object,
    crash_building and crash. *)
Theorem done_info_has_six_keys (s : Env) (vehicle_id : string) (v : Vehicle)
    (a : string) (o : Observation) :
  agent_ready s vehicle_id v a o ->
  exists (done : bool) (info : gmap string bool) (s' : Env),
    done_function vehicle_id s = Ok ((done, info), s')
    /\ dom info = done_info_keys.
Proof.
  intros Hr. eexists _, _, _.
  split; [exact (done_function_run_info s vehicle_id v a o Hr)|].
  rewrite dom_insert_L.
  assert (Hinit : dom (<["crash_vehicle" := false]> (<["crash_object" := false]>
            (<["crash_building" := false]> (<["out_of_road" := false]>
              (<["arrive_dest" := false]> (∅ : gmap string bool))))))
          = {[ "arrive_dest"; "out_of_road"; "crash_vehicle"; "crash_object";
               "crash_building" ]}).
  { rewrite !dom_insert_L, dom_empty_L. set_solver. }
  match goal with |- _ ∪ dom ?m = _ =>
    assert (D : dom m = {[ "arrive_dest"; "out_of_road"; "crash_vehicle";
                           "crash_object"; "crash_building" ]})
  end.
  { repeat (apply dom_set_flag; [|set_solver]). exact Hinit. }
  rewrite D. unfold done_info_keys. set_solver.
Qed.

Lemma done_info_has_six_keys_witness :
  exists (done : bool) (info : gmap string bool) (s' : Env),
    done_function "default_agent"
      (Demo.env (Demo.car 97 0 true true true) 0 [true] 1)
    = Ok ((done, info), s')
    /\ dom info = done_info_keys.
Proof.
  exact (done_info_has_six_keys
           (Demo.env (Demo.car 97 0 true true true) 0 [true] 1)
           "default_agent" (Demo.car 97 0 true true true)
           "default_agent" {| lateral_dist := 0 |}
           (demo_ready (Demo.car 97 0 true true true) 0 [true] 1
              eq_refl eq_refl)).
Defined.

Lemma done_messages_length (a o cv co cb : bool) :
  List.length (done_messages a o cv co cb)
  = (Nat.b2n a + Nat.b2n o + Nat.b2n cv + Nat.b2n co + Nat.b2n cb)%nat.
Proof. now destruct a, o, cv, co, cb. Qed.

(** X7. The done evaluation logs one message per reason that holds, and
    nothing else: the log grows by the number of true reasons (at most
    five), and the state is left exactly as found if and only if the
    episode is not done. *)
Theorem done_logs_exactly_when_done (s : Env) (vehicle_id : string)
    (v : Vehicle) (a : string) (o : Observation) :
  agent_ready s vehicle_id v a o ->
  exists (done arrive out cv co cb : bool) (info : gmap string bool) (s' : Env),
    done_function vehicle_id s = Ok ((done, info), s')
    /\ info !! "arrive_dest" = Some arrive
    /\ info !! "out_of_road" = Some out
    /\ info !! "crash_vehicle" = Some cv
    /\ info !! "crash_object" = Some co
    /\ info !! "crash_building" = Some cb
    /\ List.length (log s')
       = (List.length (log s) + (Nat.b2n arrive + Nat.b2n out + Nat.b2n cv
                                 + Nat.b2n co + Nat.b2n cb))%nat
    /\ (done = false <-> s' = s).
Proof.
  intros Hr.
  destruct (done_function_run s vehicle_id v a o Hr)
    as (info & Hrun & L1 & L2 & L3 & L4 & L5 & _).
  eexists _, _, _, _, _, _, info, _. split; [exact Hrun|].
  repeat (split; [eassumption|]).
  cbn [log set_log]. rewrite length_app, done_messages_length.
  split; [lia|].
  assert (G : forall x1 x2 x3 x4 x5 : bool,
             x1 || x2 || x3 || x4 || x5 = false
             <-> set_log (log s ++ done_messages x1 x2 x3 x4 x5) s = s).
  { intros x1 x2 x3 x4 x5. split.
    - intros H. repeat (apply orb_false_iff in H as [H ?]). subst.
      destruct s; cbn. now rewrite app_nil_r.
    - intros H. apply (f_equal log) in H. cbn [log set_log] in H.
      apply (f_equal (@List.length string)) in H.
      rewrite length_app, done_messages_length in H.
      destruct x1, x2, x3, x4, x5; cbn in H; try lia; reflexivity. }
  apply G.
Qed.

Lemma done_logs_exactly_when_done_witness :
  exists (done arrive out cv co cb : bool) (info : gmap string bool) (s' : Env),
    done_function "default_agent"
      (Demo.env (Demo.car 50 0 true false false) 0 [true] 1)
    = Ok ((done, info), s')
    /\ info !! "arrive_dest" = Some arrive
    /\ info !! "out_of_road" = Some out
    /\ info !! "crash_vehicle" = Some cv
    /\ info !! "crash_object" = Some co
    /\ info !! "crash_building" = Some cb
    /\ List.length (log s')
       = (0 + (Nat.b2n arrive + Nat.b2n out + Nat.b2n cv
               + Nat.b2n co + Nat.b2n cb))%nat
    /\ (done = false
        <-> s' = Demo.env (Demo.car 50 0 true false false) 0 [true] 1).
Proof.
  exact (done_logs_exactly_when_done
           (Demo.env (Demo.car 50 0 true false false) 0 [true] 1)
           "default_agent" (Demo.car 50 0 true false false)
           "default_agent" {| lateral_dist := 0 |}
           (demo_ready (Demo.car 50 0 true false false) 0 [true] 1
              eq_refl eq_refl)).
Defined.

(** ** How the done, cost and reward evaluations agree and differ *)

Lemma cost_function_value (s : Env) (vehicle_id : string)
    (v : Vehicle) (a : string) (o : Observation) :
  agent_ready s vehicle_id v a o ->
  exists info : gmap string Q,
    cost_function vehicle_id s
    = Ok ((if out_of_road_decision (config s) (lateral_dist o) v
           then out_of_road_cost (config s)
           else if crash_vehicle v then crash_vehicle_cost (config s)
           else if crash_object v then crash_object_cost (config s)
           else 0%Q, info), s).
Proof.
  intros (Hv & Hlen & Ha & Ho). unfold cost_function.
  rewrite (bind_ok _ _ _ _ _ (get_vehicle_ok _ _ _ Hv)).
  rewrite (bind_ok _ _ _ _ _ (_is_out_of_road_ok s v a o Ha Ho)).
  unfold bind, gets, lift, dict_get, ret.
  destruct (out_of_road_decision _ _ _), (crash_vehicle v), (crash_object v);
    rewrite ?lookup_insert_eq; eexists; reflexivity.
Qed.

Lemma out_of_road_decision_of_run (s : Env) (v : Vehicle) (a : string)
    (o : Observation) (b : bool) :
  agent_manager s !! name v = Some a ->
  observations s !! a = Some o ->
  _is_out_of_road v s = Ok (b, s) ->
  out_of_road_decision (config s) (lateral_dist o) v = b.
Proof.
  intros Ha Ho H. rewrite (_is_out_of_road_ok s v a o Ha Ho) in H.
  now injection H.
Qed.

Lemma off_route_check_false (rc : Q) :
  (- (1 # 10) <= rc)%Q -> done_inline_off_route_check rc = false.
Proof. intros H. now apply Qltb_ge. Qed.

Lemma arrival_checks_false (rc : Q) :
  (rc <= 95 # 100)%Q ->
  arrival_threshold_check rc || done_inline_arrival_check rc = false.
Proof. intros H. rewrite arrival_checks_agree. now apply Qltb_ge. Qed.

(** X8. The cost and done evaluations agree on the out-of-road test: in a
    state where [_is_out_of_road] holds, the cost is the out-of-road cost
    and the done evaluation ends the episode with the out_of_road reason. *)
Theorem out_of_road_cost_implies_done (s : Env) (vehicle_id : string)
    (v : Vehicle) (a : string) (o : Observation) :
  agent_ready s vehicle_id v a o ->
  _is_out_of_road v s = Ok (true, s) ->
  exists (cost_info : gmap string Q) (done_info : gmap string bool) (s' : Env),
    cost_function vehicle_id s
    = Ok ((out_of_road_cost (config s), cost_info), s)
    /\ done_function vehicle_id s = Ok ((true, done_info), s')
    /\ done_info !! "out_of_road" = Some true.
Proof.
  intros Hr Hout.
  destruct (cost_function_value s vehicle_id v a o Hr) as (ci & Hc).
  destruct (done_function_run s vehicle_id v a o Hr)
    as (di & Hd & _ & L2 & _).
  destruct Hr as (Hv & Hlen & Ha & Ho).
  rewrite (out_of_road_decision_of_run s v a o true Ha Ho Hout) in Hc, Hd, L2.
  rewrite orb_true_l in L2. rewrite orb_true_l, orb_true_r in Hd.
  exists ci, di. eexists. split; [exact Hc|]. split; [exact Hd | exact L2].
Qed.

Lemma out_of_road_cost_implies_done_witness :
  exists (cost_info : gmap string Q) (done_info : gmap string bool) (s' : Env),
    cost_function "default_agent"
      (Demo.env (Demo.car 50 0 false false false) 11 [true] 1)
    = Ok ((1%Q, cost_info),
          Demo.env (Demo.car 50 0 false false false) 11 [true] 1)
    /\ done_function "default_agent"
         (Demo.env (Demo.car 50 0 false false false) 11 [true] 1)
       = Ok ((true, done_info), s')
    /\ done_info !! "out_of_road" = Some true.
Proof.
  exact (out_of_road_cost_implies_done
           (Demo.env (Demo.car 50 0 false false false) 11 [true] 1)
           "default_agent" (Demo.car 50 0 false false false)
           "default_agent" {| lateral_dist := 11 |}
           (demo_ready (Demo.car 50 0 false false false) 11 [true] 1
              eq_refl eq_refl)
           eq_refl).
Defined.

(** X9. A vehicle collision is charged even when it does not end the
    episode: with crash_vehicle_done off, a vehicle that crashed into
    another one, is on the road, between -0.1 and 0.95 of the route and has
    hit neither object nor building, is charged the vehicle-crash cost
    while the episode goes on, with the crash_vehicle and crash reasons
    false and nothing logged. *)
Theorem vehicle_crash_costs_without_ending (s : Env) (vehicle_id : string)
    (v : Vehicle) (a : string) (o : Observation) :
  agent_ready s vehicle_id v a o ->
  crash_vehicle v = true ->
  crash_vehicle_done (config s) = false ->
  _is_out_of_road v s = Ok (false, s) ->
  (- (1 # 10) <= route_completion_of v)%Q ->
  (route_completion_of v <= 95 # 100)%Q ->
  crash_object v = false ->
  crash_building v = false ->
  exists (cost_info : gmap string Q) (done_info : gmap string bool),
    cost_function vehicle_id s
    = Ok ((crash_vehicle_cost (config s), cost_info), s)
    /\ done_function vehicle_id s = Ok ((false, done_info), s)
    /\ done_info !! "crash_vehicle" = Some false
    /\ done_info !! "crash" = Some false.
Proof.
  intros Hr Hcv Hoff Hout Hlo Hhi Hco Hcb.
  destruct (cost_function_value s vehicle_id v a o Hr) as (ci & Hc).
  destruct (done_function_run s vehicle_id v a o Hr)
    as (di & Hd & _ & _ & L3 & _ & _ & L6).
  destruct Hr as (Hv & Hlen & Ha & Ho).
  rewrite (out_of_road_decision_of_run s v a o false Ha Ho Hout) in Hc, Hd.
  rewrite Hcv in Hc.
  rewrite (off_route_check_false _ Hlo), (arrival_checks_false _ Hhi),
    Hcv, Hoff, Hco, Hcb in Hd.
  rewrite Hcv, Hoff in L3. rewrite Hcv, Hoff, Hco, Hcb in L6.
  exists ci, di. split; [exact Hc|]. split; [|split; [exact L3 | exact L6]].
  rewrite Hd. cbn. f_equal. f_equal. destruct s; cbn. now rewrite app_nil_r.
Qed.

Lemma vehicle_crash_costs_without_ending_witness :
  exists (cost_info : gmap string Q) (done_info : gmap string bool),
    cost_function "default_agent"
      (Demo.env (Demo.car 50 0 true false false) 0 [true] 1)
    = Ok ((1%Q, cost_info),
          Demo.env (Demo.car 50 0 true false false) 0 [true] 1)
    /\ done_function "default_agent"
         (Demo.env (Demo.car 50 0 true false false) 0 [true] 1)
       = Ok ((false, done_info),
             Demo.env (Demo.car 50 0 true false false) 0 [true] 1)
    /\ done_info !! "crash_vehicle" = Some false
    /\ done_info !! "crash" = Some false.
Proof.
  refine (vehicle_crash_costs_without_ending
            (Demo.env (Demo.car 50 0 true false false) 0 [true] 1)
            "default_agent" (Demo.car 50 0 true false false)
            "default_agent" {| lateral_dist := 0 |}
            (demo_ready (Demo.car 50 0 true false false) 0 [true] 1
               eq_refl eq_refl)
            eq_refl eq_refl eq_refl _ _ eq_refl eq_refl);
    apply Qle_bool_iff; reflexivity.
Defined.

(** X10. Falling behind the start of the route ends the episode but is
    neither charged nor penalised: with route_completion < -0.1, the
    out-of-road test false on the cached and on the fresh lateral distance,
    and no vehicle or object crash, the done evaluation ends the episode
    with the out_of_road reason, while the cost is 0 and the reward is the
    dense step reward, not the out-of-road penalty. *)
Theorem behind_start_ends_without_penalty (norm : Point -> Q)
    (w2m : Point -> Point) (clip : Q -> Q -> Q -> Q) (s : Env)
    (vehicle_id : string) (v : Vehicle) (o : Observation) (cl : Lane)
    (data : Scenario) :
  agent_ready s vehicle_id v vehicle_id o ->
  current_lane_of v = Some cl ->
  expert_ready s vehicle_id data ->
  (route_completion_of v < - (1 # 10))%Q ->
  out_of_road_decision (config s) (lateral_dist o) v = false ->
  out_of_road_decision (config s)
    (snd (local_coordinates (current_sdc_route s) (position v))) v = false ->
  crash_vehicle v = false ->
  crash_object v = false ->
  exists (done_info : gmap string bool) (s0 : Env) (cost_info : gmap string Q)
         (dense : Q) (reward_info : gmap string value) (s1 : Env),
    done_function vehicle_id s = Ok ((true, done_info), s0)
    /\ done_info !! "out_of_road" = Some true
    /\ cost_function vehicle_id s = Ok ((0%Q, cost_info), s)
    /\ reward_function norm w2m clip vehicle_id s
       = Ok ((dense, reward_info), s1)
    /\ reward_info !! "step_reward" = Some (VFloat dense).
Proof.
  intros Hr Hcl He Hrc Hod Hfresh Hcv Hco.
  destruct (cost_function_value s vehicle_id v vehicle_id o Hr) as (ci & Hc).
  destruct (done_function_run s vehicle_id v vehicle_id o Hr)
    as (di & Hd & _ & L2 & _).
  destruct (reward_function_run norm w2m clip s vehicle_id v o cl data Hr Hcl He)
    as (ri & Hrw & L1 & _).
  assert (Hoff : done_inline_off_route_check (route_completion_of v) = true)
    by now apply Qltb_lt.
  assert (Harr : arrival_threshold_check (route_completion_of v) = false)
    by (apply Qltb_ge; lra).
  rewrite Hod, Hcv, Hco in Hc. rewrite Hoff, orb_true_r in L2.
  rewrite Hoff, !orb_true_r in Hd. cbn [orb] in Hd.
  rewrite Harr, Hfresh, Hcv, Hco in Hrw.
  eexists di, _, ci, _, ri, _.
  split; [exact Hd|]. split; [exact L2|]. split; [exact Hc|].
  split; [exact Hrw | exact L1].
Qed.

Lemma behind_start_ends_without_penalty_witness :
  exists (done_info : gmap string bool) (s0 : Env) (cost_info : gmap string Q)
         (dense : Q) (reward_info : gmap string value) (s1 : Env),
    done_function "default_agent"
      (Demo.env (Demo.car (-20) 0 false false false) 0 [true] 1)
    = Ok ((true, done_info), s0)
    /\ done_info !! "out_of_road" = Some true
    /\ cost_function "default_agent"
         (Demo.env (Demo.car (-20) 0 false false false) 0 [true] 1)
       = Ok ((0%Q, cost_info),
             Demo.env (Demo.car (-20) 0 false false false) 0 [true] 1)
    /\ reward_function Demo.norm1 Demo.flip_y Demo.clip "default_agent"
         (Demo.env (Demo.car (-20) 0 false false false) 0 [true] 1)
       = Ok ((dense, reward_info), s1)
    /\ reward_info !! "step_reward" = Some (VFloat dense).
Proof.
  exact (behind_start_ends_without_penalty Demo.norm1 Demo.flip_y Demo.clip
           (Demo.env (Demo.car (-20) 0 false false false) 0 [true] 1)
           "default_agent" (Demo.car (-20) 0 false false false)
           {| lateral_dist := 0 |} (Demo.straight 1 100) (Demo.scenario [true])
           (demo_ready (Demo.car (-20) 0 false false false) 0 [true] 1
              eq_refl eq_refl)
           eq_refl
           (demo_expert_ready (Demo.car (-20) 0 false false false) 0 [true] 1 0
              demo_last_valid_0 ltac:(lia))
           eq_refl eq_refl eq_refl eq_refl eq_refl).
Defined.

(** X11. The done evaluation works on the lateral distance cached by the
    previous reward evaluation.  In relaxed mode, when the cached distance
    is within 10 but the vehicle is now more than 10 off the route (no line
    or sidewalk flag, route completion between -0.1 and 0.95): the done
    evaluation before the reward evaluation does not report out_of_road;
    the reward evaluation that follows returns the out-of-road penalty; and
    a done evaluation after it ends the episode with the out_of_road
    reason. *)
Theorem stale_cache_delays_out_of_road (norm : Point -> Q)
    (w2m : Point -> Point) (clip : Q -> Q -> Q -> Q) (s : Env)
    (vehicle_id : string) (v : Vehicle) (o : Observation) (cl : Lane)
    (data : Scenario) :
  agent_ready s vehicle_id v vehicle_id o ->
  current_lane_of v = Some cl ->
  expert_ready s vehicle_id data ->
  relax_out_of_road_done (config s) = true ->
  (Qabs (lateral_dist o) <= 10)%Q ->
  (10 < Qabs (snd (local_coordinates (current_sdc_route s) (position v))))%Q ->
  on_yellow_continuous_line v = false ->
  crash_sidewalk v = false ->
  (- (1 # 10) <= route_completion_of v)%Q ->
  (route_completion_of v <= 95 # 100)%Q ->
  exists (done0 : bool) (info0 : gmap string bool) (s0 : Env)
         (reward_info : gmap string value) (s1 : Env)
         (info1 : gmap string bool) (s2 : Env),
    done_function vehicle_id s = Ok ((done0, info0), s0)
    /\ info0 !! "out_of_road" = Some false
    /\ reward_function norm w2m clip vehicle_id s0
       = Ok (((- out_of_road_penalty (config s))%Q, reward_info), s1)
    /\ done_function vehicle_id s1 = Ok ((true, info1), s2)
    /\ info1 !! "out_of_road" = Some true.
Proof.
  intros Hr Hcl He Hrelax Hold Hnew Hy Hsw Hlo Hhi.
  destruct (done_function_run s vehicle_id v vehicle_id o Hr)
    as (i0 & Hd0 & _ & L0 & _).
  assert (Hod : out_of_road_decision (config s) (lateral_dist o) v = false).
  { unfold out_of_road_decision. rewrite Hrelax, Hy, Hsw.
    apply Qltb_ge in Hold. now rewrite Hold. }
  rewrite Hod, (off_route_check_false _ Hlo) in L0.
  match type of Hd0 with _ = Ok (_, ?st) => set (s0 := st) in * end.
  assert (Hr0 : agent_ready s0 vehicle_id v vehicle_id o) by exact Hr.
  assert (He0 : expert_ready s0 vehicle_id data) by exact He.
  destruct (reward_function_run norm w2m clip s0 vehicle_id v o cl data
              Hr0 Hcl He0) as (ri & Hrw & _).
  set (written := snd (local_coordinates (current_sdc_route s) (position v))) in *.
  assert (Hfresh : out_of_road_decision (config s) written v = true).
  { unfold out_of_road_decision. rewrite Hrelax.
    apply Qltb_lt in Hnew. now rewrite Hnew. }
  assert (Harr : arrival_threshold_check (route_completion_of v) = false)
    by now apply Qltb_ge.
  change (config s0) with (config s) in Hrw.
  change (current_sdc_route s0) with (current_sdc_route s) in Hrw.
  fold written in Hrw. rewrite Harr, Hfresh in Hrw.
  match type of Hrw with _ = Ok (_, ?st) => set (s1 := st) in * end.
  assert (Hr1 : agent_ready s1 vehicle_id v vehicle_id
                  {| lateral_dist := written |}).
  { destruct Hr as (Hv & Hlen & Ha & Ho). repeat split; try assumption.
    apply lookup_insert_eq. }
  destruct (done_function_run s1 vehicle_id v vehicle_id _ Hr1)
    as (i1 & Hd1 & _ & L1 & _).
  change (config s1) with (config s) in Hd1, L1.
  cbn [lateral_dist] in Hd1, L1. rewrite Hfresh in L1.
  rewrite Hfresh, !orb_true_r in Hd1. cbn [orb] in Hd1, L1.
  eexists _, i0, s0, ri, s1, i1, _.
  split; [exact Hd0|]. split; [exact L0|]. split; [exact Hrw|].
  split; [exact Hd1 | exact L1].
Qed.

Lemma stale_cache_delays_out_of_road_witness :
  exists (done0 : bool) (info0 : gmap string bool) (s0 : Env)
         (reward_info : gmap string value) (s1 : Env)
         (info1 : gmap string bool) (s2 : Env),
    done_function "default_agent"
      (Demo.env (Demo.car 50 11 false false false) 0 [true] 1)
    = Ok ((done0, info0), s0)
    /\ info0 !! "out_of_road" = Some false
    /\ reward_function Demo.norm1 Demo.flip_y Demo.clip "default_agent" s0
       = Ok (((- (10))%Q, reward_info), s1)
    /\ done_function "default_agent" s1 = Ok ((true, info1), s2)
    /\ info1 !! "out_of_road" = Some true.
Proof.
  refine (stale_cache_delays_out_of_road Demo.norm1 Demo.flip_y Demo.clip
            (Demo.env (Demo.car 50 11 false false false) 0 [true] 1)
            "default_agent" (Demo.car 50 11 false false false)
            {| lateral_dist := 0 |} (Demo.straight 1 100) (Demo.scenario [true])
            (demo_ready (Demo.car 50 11 false false false) 0 [true] 1
               eq_refl eq_refl)
            eq_refl
            (demo_expert_ready (Demo.car 50 11 false false false) 0 [true] 1 0
               demo_last_valid_0 ltac:(lia))
            eq_refl _ eq_refl eq_refl eq_refl _ _);
    apply Qle_bool_iff; reflexivity.
Defined.

(** ** The expert lookup: last valid frame, loop and resolved index *)

(** X12. [np.max(np.where(mask == True)[0])] is the index of the last valid
    frame: it returns [l] exactly when frame [l] is valid and no later
    frame is, and it raises, with [ValueError], exactly when the mask has
    no valid frame. *)
Theorem largest_valid_index_spec (mask : list bool) :
  (forall m : Z,
     np_max (np_where mask) = Ok m
     <-> exists l : nat, m = Z.of_nat l /\ is_last_valid mask l)
  /\ (forall e : exn,
        np_max (np_where mask) = Raise e
        <-> e = ValueError /\ forall j : nat, mask !! j <> Some true).
Proof.
  split.
  - intros m. split.
    + intros H. apply np_max_spec in H as [Hin Hub].
      apply elem_of_np_where_from in Hin as (l & -> & Hl).
      exists l. split; [lia|]. split; [exact Hl|].
      intros j Hj Hv.
      assert (Hin : 0 + Z.of_nat j ∈ np_where mask)
        by (apply elem_of_np_where_from; eauto).
      apply Hub in Hin. lia.
    + intros (l & -> & Hl). now apply np_max_where_last_valid.
  - intros e. split.
    + intros H. unfold np_where in H.
      destruct (np_where_from 0 mask) as [|x r] eqn:E; [|discriminate H].
      injection H as <-. split; [reflexivity|].
      intros j Hj.
      assert (Hin : 0 + Z.of_nat j ∈ np_where_from 0 mask)
        by (apply elem_of_np_where_from; eauto).
      rewrite E in Hin. inversion Hin.
    + intros [-> Hnone]. now apply np_max_where_no_valid.
Qed.

Lemma walk_back_more_fuel (mask : list bool) (fuel extra : nat) (c : Z)
    (r : result Z) :
  walk_back fuel mask c = Some r -> walk_back (fuel + extra) mask c = Some r.
Proof.
  revert c. induction fuel as [|fuel IH]; intros c; [discriminate|].
  cbn [Nat.add]. rewrite !walk_back_S.
  destruct (py_index mask c) as [[|]|e]; try (intros H; exact H).
  destruct (c - 1 =? 0); [intros H; exact H | apply IH].
Qed.

Lemma py_index_raises_index_error {A} (a : list A) (i : Z) (e : exn) :
  py_index a i = Raise e -> e = IndexError.
Proof.
  unfold py_index.
  destruct (_ && _); [destruct (a !! _); [discriminate | congruence]|].
  destruct (_ && _); [destruct (a !! _); [discriminate | congruence]|].
  congruence.
Qed.

Lemma walk_back_result (mask : list bool) (fuel : nat) (c : Z) (r : result Z) :
  walk_back fuel mask c = Some r ->
  match r with
  | Ok i => i <= c
  | Raise e => e = IndexError
  end.
Proof.
  revert c. induction fuel as [|fuel IH]; intros c; [discriminate|].
  rewrite walk_back_S.
  destruct (py_index mask c) as [[|]|e] eqn:E.
  - intros [= <-]. lia.
  - destruct (c - 1 =? 0); [intros [= <-]; lia|].
    intros H. apply IH in H. destruct r; [lia | exact H].
  - intros [= <-]. exact (py_index_raises_index_error _ _ _ E).
Qed.

(** X13. The walk-back loop ends on every mask and every start index: the
    iteration bound is never used up, a larger bound gives the same
    result, and the result is an index not above the start or an
    [IndexError]. *)
Theorem walk_back_always_ends (mask : list bool) (c : Z) :
  exists r : result Z,
    walk_back (walk_back_fuel mask c) mask c = Some r
    /\ walk_back_loop mask c = r
    /\ (forall extra : nat,
          walk_back (walk_back_fuel mask c + extra) mask c = Some r)
    /\ match r with
       | Ok i => i <= c
       | Raise e => e = IndexError
       end.
Proof.
  destruct (walk_back (walk_back_fuel mask c) mask c) as [r|] eqn:E;
    [|now destruct (walk_back_terminates mask c)].
  exists r. split; [reflexivity|]. split.
  - unfold walk_back_loop. now rewrite E.
  - split; [intros extra; now apply walk_back_more_fuel|].
    exact (walk_back_result _ _ _ _ E).
Qed.

Lemma spec_walk_back_closest (mask : list bool) (k : nat) :
  (k < List.length mask)%nat ->
  let i := spec_walk_back mask k in
  (i <= k)%nat
  /\ (mask !! i = Some true \/ i = 0%nat)
  /\ (forall j : nat, (i < j <= k)%nat -> mask !! j = Some false)
  /\ (mask !! k = Some true -> i = k).
Proof.
  induction k as [|k IH]; intros Hk; cbn [spec_walk_back].
  - split; [lia|]. split; [now right|]. split; [intros j Hj; lia | reflexivity].
  - destruct (lookup_lt_is_Some_2 mask (S k) Hk) as [b Hb].
    rewrite Hb. unfold default; cbn [from_option id]. destruct b; cbv zeta.
    + split; [lia|]. split; [now left|].
      split; [intros j Hj; lia | reflexivity].
    + destruct (IH ltac:(lia)) as (H1 & H2 & H3 & _).
      split; [lia|]. split; [exact H2|]. split; [|discriminate].
      intros j Hj. destruct (decide (j = S k)) as [-> | Hne]; [exact Hb|].
      apply H3. lia.
Qed.

(** X14. For a mask with a valid frame, at every step from 1 on (and at
    step 0 when frame 0 is valid), the index resolved by lines 266-277 is
    the closest valid frame at or before min(step, last valid): it is not
    above that bound, every frame between it and the bound is invalid, and
    it is a valid frame or frame 0.  When the frame at the bound is valid,
    in particular at every step from the last valid frame on, the index is
    the bound itself. *)
Theorem expert_index_is_closest_valid (mask : list bool) (l step : nat) :
  is_last_valid mask l ->
  (1 <= step)%nat \/ mask !! 0%nat = Some true ->
  exists i : nat,
    expert_current_step mask (Z.of_nat step) = Ok (Z.of_nat i)
    /\ (i <= Nat.min step l)%nat
    /\ (mask !! i = Some true \/ i = 0%nat)
    /\ (forall j : nat, (i < j <= Nat.min step l)%nat -> mask !! j = Some false)
    /\ (mask !! Nat.min step l = Some true -> i = Nat.min step l)
    /\ ((l <= step)%nat -> i = l).
Proof.
  intros Hl H0. exists (spec_resolve mask l step).
  split; [now apply expert_current_step_spec|].
  pose proof (lookup_lt_Some _ _ _ (proj1 Hl)) as Hlen.
  destruct (spec_walk_back_closest mask (Nat.min step l) ltac:(lia))
    as (H1 & H2 & H3 & H4).
  unfold spec_resolve.
  split; [exact H1|]. split; [exact H2|]. split; [exact H3|].
  split; [exact H4|].
  intros Hle. rewrite Nat.min_r in * by exact Hle. apply H4, Hl.
Qed.

Lemma expert_index_is_closest_valid_witness :
  exists i : nat,
    expert_current_step [true; false; true; false; false] 1 = Ok (Z.of_nat i)
    /\ (i <= 1)%nat
    /\ ([true; false; true; false; false] !! i = Some true \/ i = 0%nat).
Proof.
  destruct (expert_index_is_closest_valid [true; false; true; false; false]
              2 1) as (i & Hi & Hle & Hv & _).
  - split; [reflexivity|]. intros [|[|[|[|[|j]]]]] Hj; try lia; discriminate.
  - left. lia.
  - exists i. split; [exact Hi|]. split; [simpl in Hle; lia | exact Hv].
Defined.

(** ** The diagnostics of the reward evaluation *)

Section RewardDiagnostics.

Variable norm : Point -> Q.
Variable waymo_to_metadrive_vector : Point -> Point.
Variable clip : Q -> Q -> Q -> Q.

(** The reward evaluation up to the expert diagnostics: with the agent and
    its lane at hand and the scenario of the global seed read, it returns
    what the expert diagnostics return, with the dynamics mode added, and
    raises what they raise. *)
Lemma reward_function_run_with (s : Env) (vehicle_id : string) (v : Vehicle)
    (o : Observation) (cl : Lane) (data : Scenario) (g : Z) :
  agent_ready s vehicle_id v vehicle_id o ->
  current_lane_of v = Some cl ->
  global_seed s = Some g ->
  data_manager s !! g = Some data ->
  let cfg := config s in
  let lateral_factor :=
    if use_lateral_reward cfg
    then clip (1 - 2 * Qabs (snd (local_coordinates cl (position v))) / 6)%Q
           0%Q 1%Q
    else 1%Q in
  let dense :=
    (0 + driving_reward cfg
         * (fst (local_coordinates cl (position v))
            - fst (local_coordinates cl (last_position v)))
         * lateral_factor)%Q in
  let s' := set_observations
              (<[vehicle_id :=
                   {| lateral_dist :=
                        snd (local_coordinates (current_sdc_route s)
                               (position v)) |}]> (observations s)) s in
  let base : gmap string value :=
    <["carsize" := VList [WIDTH v; LENGTH v]]>
      (<["route_completion" := VFloat (route_completion_of v)]>
         (<["current_distance" :=
              VFloat (fst (local_coordinates
                             (reference_trajectory (navigation v)) (position v)))]>
            (<["track_length" :=
                 VFloat (length (reference_trajectory (navigation v)))]>
               (<["step_reward" := VFloat dense]> ∅)))) in
  let expert :=
    expert_diagnostics norm waymo_to_metadrive_vector data
      (native_vid vehicle_id data) (position v) base s' in
  (forall info_e : gmap string value,
     expert = Ok (info_e, s') ->
     exists reward : Q,
       reward_function norm waymo_to_metadrive_vector clip vehicle_id s
       = Ok ((reward,
              match _dynamics_mode v with
              | Some m => <["dynamics_mode" := VStr m]> info_e
              | None => info_e
              end), s'))
  /\ (forall e : exn,
        expert = Raise e ->
        reward_function norm waymo_to_metadrive_vector clip vehicle_id s
        = Raise e).
Proof.
  intros (Hv & Hlen & Ha & Ho) Hcl Hg Hdata.
  intros cfg lateral_factor dense s' base expert.
  assert (E : reward_function norm waymo_to_metadrive_vector clip vehicle_id s
              = bind (fun st => expert)
                  (fun step_info =>
                     ret (if arrival_threshold_check (route_completion_of v)
                          then success_reward cfg
                          else if out_of_road_decision cfg
                                    (snd (local_coordinates (current_sdc_route s)
                                            (position v))) v
                          then (- out_of_road_penalty cfg)%Q
                          else if crash_vehicle v
                          then (- crash_vehicle_penalty cfg)%Q
                          else if crash_object v
                          then (- crash_object_penalty cfg)%Q
                          else dense,
                          match _dynamics_mode v with
                          | Some m => <["dynamics_mode" := VStr m]> step_info
                          | None => step_info
                          end)) s').
  { unfold reward_function.
    rewrite (bind_ok _ _ _ _ _ (get_vehicle_ok _ _ _ Hv)).
    rewrite (bind_ok _ _ _ _ _ (current_lane_ok v cl s Hcl)).
    subst base dense lateral_factor.
    destruct (local_coordinates cl (last_position v)) as [ll lal].
    destruct (local_coordinates cl (position v)) as [ln lan].
    cbn [fst snd] in *.
    unfold bind at 1, gets at 1.
    rewrite (bind_ok _ _ _ _ _ (write_lateral_dist_ok s vehicle_id o _ Ho)).
    fold s'. unfold bind at 1, gets at 1. change (config s') with cfg.
    rewrite (bind_ok _ _ _ _ _ (_is_arrive_destination_ok s' v Hlen)).
    assert (Ho' : observations s' !! vehicle_id
                  = Some {| lateral_dist :=
                              snd (local_coordinates (current_sdc_route s)
                                     (position v)) |})
      by apply lookup_insert_eq.
    match goal with |- bind ?m _ s' = _ =>
      assert (Hsel : m s'
                     = Ok (if arrival_threshold_check (route_completion_of v)
                           then success_reward cfg
                           else if out_of_road_decision cfg
                                     (snd (local_coordinates (current_sdc_route s)
                                             (position v))) v
                           then (- out_of_road_penalty cfg)%Q
                           else if crash_vehicle v
                           then (- crash_vehicle_penalty cfg)%Q
                           else if crash_object v
                           then (- crash_object_penalty cfg)%Q
                           else (0 + driving_reward cfg * (ln - ll)
                                     * (if use_lateral_reward cfg
                                        then clip (1 - 2 * Qabs lan / 6) 0 1
                                        else 1))%Q, s')) end.
    { destruct (arrival_threshold_check _); [reflexivity|].
      rewrite (bind_ok _ _ _ _ _ (_is_out_of_road_ok s' v vehicle_id _ Ha Ho')).
      cbn [lateral_dist]. change (config s') with cfg.
      now destruct (out_of_road_decision _ _ _), (crash_vehicle v),
        (crash_object v). }
    rewrite (bind_ok _ _ _ _ _ Hsel).
    rewrite (bind_ok _ _ _ _ _ (lift_ok _ _ s' (py_div_ok _ _ Hlen))).
    rewrite (bind_ok _ _ _ _ _ (get_scenario_ok s' g data Hg Hdata)).
    reflexivity. }
  rewrite E. split.
  - intros info_e He. eexists. unfold bind. rewrite He. reflexivity.
  - intros e He. unfold bind. now rewrite He.
Qed.

Lemma expert_diagnostics_absent (data : Scenario) (nv : string)
    (agent_xy : Point) (info : gmap string value) (s : Env) :
  tracks data !! nv = None \/ tracks data !! nv = Some EmptyTrack ->
  expert_diagnostics norm waymo_to_metadrive_vector data nv agent_xy info s
  = Ok (info, s).
Proof. unfold expert_diagnostics. now intros [-> | ->]. Qed.

End RewardDiagnostics.

(** X15. Missing expert data is not an error: when the scenario has no
    track for the agent, or an empty one, the reward evaluation returns,
    and its diagnostics hold the step reward but neither distance_error nor
    distance_error_final. *)
Theorem missing_expert_data_omits_distances (norm : Point -> Q)
    (w2m : Point -> Point) (clip : Q -> Q -> Q -> Q) (s : Env)
    (vehicle_id : string) (v : Vehicle) (o : Observation) (cl : Lane)
    (data : Scenario) (g : Z) :
  agent_ready s vehicle_id v vehicle_id o ->
  current_lane_of v = Some cl ->
  global_seed s = Some g ->
  data_manager s !! g = Some data ->
  tracks data !! native_vid vehicle_id data = None
  \/ tracks data !! native_vid vehicle_id data = Some EmptyTrack ->
  exists (reward : Q) (info : gmap string value) (s' : Env),
    reward_function norm w2m clip vehicle_id s = Ok ((reward, info), s')
    /\ info !! "distance_error" = None
    /\ info !! "distance_error_final" = None
    /\ is_Some (info !! "step_reward").
Proof.
  intros Hr Hcl Hg Hdata Htrack.
  destruct (reward_function_run_with norm w2m clip s vehicle_id v o cl data g
              Hr Hcl Hg Hdata) as [Hok _].
  destruct (Hok _ (expert_diagnostics_absent norm w2m data _ _ _ _ Htrack))
    as (reward & Hrun).
  eexists reward, _, _. split; [exact Hrun|].
  destruct (_dynamics_mode v);
    (split; [|split]);
    rewrite ?lookup_insert_ne by discriminate;
    first [ apply lookup_empty | rewrite lookup_insert_eq; eauto ].
Qed.

Lemma missing_expert_data_omits_distances_witness :
  exists (reward : Q) (info : gmap string value) (s' : Env),
    reward_function Demo.norm1 Demo.flip_y Demo.clip "default_agent"
      (set_data_manager {[ 7 := bare_scenario ]}
         (Demo.env (Demo.car 50 0 false false false) 0 [true] 1))
    = Ok ((reward, info), s')
    /\ info !! "distance_error" = None
    /\ info !! "distance_error_final" = None
    /\ is_Some (info !! "step_reward").
Proof.
  apply (missing_expert_data_omits_distances Demo.norm1 Demo.flip_y Demo.clip
           (set_data_manager {[ 7 := bare_scenario ]}
              (Demo.env (Demo.car 50 0 false false false) 0 [true] 1))
           "default_agent" (Demo.car 50 0 false false false)
           {| lateral_dist := 0 |} (Demo.straight 1 100) bare_scenario 7).
  - exact (demo_ready (Demo.car 50 0 false false false) 0 [true] 1
             eq_refl eq_refl).
  - reflexivity.
  - reflexivity.
  - apply lookup_singleton_eq.
  - left. apply lookup_empty.
Defined.

Lemma clamp_step_after_last (l : nat) (step : Z) :
  Z.of_nat l <= step -> clamp_step (Z.of_nat l) step = Z.of_nat l.
Proof. intros H. unfold clamp_step. destruct (_ <? _) eqn:E; lia. Qed.

Lemma walk_back_loop_valid (mask : list bool) (i : nat) :
  mask !! i = Some true -> walk_back_loop mask (Z.of_nat i) = Ok (Z.of_nat i).
Proof.
  intros H. unfold walk_back_loop, walk_back_fuel. rewrite walk_back_S.
  now rewrite (py_index_nonneg mask i true H).
Qed.

Lemma expert_diagnostics_after_last (norm : Point -> Q) (w2m : Point -> Point)
    (data : Scenario) (nv : string) (agent_xy : Point)
    (info : gmap string value) (s : Env) (st : TrackState) (l : nat)
    (q : Q * Q * Q) :
  tracks data !! nv = Some (TrackOf st) ->
  is_last_valid (st_valid st) l ->
  st_position st !! l = Some q ->
  Z.of_nat l <= episode_step s ->
  let expert_xy :=
    if coordinate_transform (config s) then w2m (xy q) else xy q in
  expert_diagnostics norm w2m data nv agent_xy info s
  = Ok (<["distance_error_final" := VFloat (norm (vsub agent_xy expert_xy))]>
          (<["distance_error" := VFloat (norm (vsub agent_xy expert_xy))]> info),
        s).
Proof.
  intros Ht Hl Hq Hstep expert_xy. unfold expert_diagnostics. rewrite Ht.
  rewrite (bind_ok _ _ _ _ _ (lift_ok _ _ s (np_max_where_last_valid _ l Hl))).
  unfold bind at 1, gets at 1.
  rewrite (clamp_step_after_last l _ Hstep).
  rewrite (bind_ok _ _ _ _ _
             (lift_ok _ _ s (walk_back_loop_valid _ l (proj1 Hl)))).
  unfold bind at 1, gets at 1.
  rewrite (bind_ok _ _ _ _ _ (lift_ok _ _ s (py_index_nonneg _ l q Hq))).
  rewrite (bind_ok _ _ _ _ _ (lift_ok _ _ s (py_index_nonneg _ l q Hq))).
  reflexivity.
Qed.

(** X16. From the last valid frame of the agent's track on, the two
    distances coincide: when the episode step has reached the last valid
    frame, the reward evaluation reports distance_error equal to
    distance_error_final, both the distance from the vehicle to the logged
    position of that frame (transformed when coordinate_transform is on). *)
Theorem distance_error_is_final_after_last_valid (norm : Point -> Q)
    (w2m : Point -> Point) (clip : Q -> Q -> Q -> Q) (s : Env)
    (vehicle_id : string) (v : Vehicle) (o : Observation) (cl : Lane)
    (data : Scenario) (g : Z) (st : TrackState) (l : nat) (q : Q * Q * Q) :
  agent_ready s vehicle_id v vehicle_id o ->
  current_lane_of v = Some cl ->
  global_seed s = Some g ->
  data_manager s !! g = Some data ->
  tracks data !! native_vid vehicle_id data = Some (TrackOf st) ->
  is_last_valid (st_valid st) l ->
  st_position st !! l = Some q ->
  Z.of_nat l <= episode_step s ->
  let expert_xy :=
    if coordinate_transform (config s) then w2m (xy q) else xy q in
  exists (reward : Q) (info : gmap string value) (s' : Env),
    reward_function norm w2m clip vehicle_id s = Ok ((reward, info), s')
    /\ info !! "distance_error"
       = Some (VFloat (norm (vsub (position v) expert_xy)))
    /\ info !! "distance_error_final" = info !! "distance_error".
Proof.
  intros Hr Hcl Hg Hdata Ht Hl Hq Hstep expert_xy.
  destruct (reward_function_run_with norm w2m clip s vehicle_id v o cl data g
              Hr Hcl Hg Hdata) as [Hok _].
  match type of Hok with
  | forall info_e, expert_diagnostics _ _ ?d ?n ?x ?i ?s1 = _ -> _ =>
      pose proof (expert_diagnostics_after_last norm w2m d n x i s1 st l q
                    Ht Hl Hq Hstep) as He
  end.
  destruct (Hok _ He) as (reward & Hrun).
  eexists reward, _, _. split; [exact Hrun|].
  destruct (_dynamics_mode v);
    rewrite ?lookup_insert_ne by discriminate;
    rewrite lookup_insert_eq;
    rewrite ?lookup_insert_ne by discriminate;
    rewrite lookup_insert_eq; split; reflexivity.
Qed.

Lemma distance_error_is_final_after_last_valid_witness :
  exists (reward : Q) (info : gmap string value) (s' : Env),
    reward_function Demo.norm1 Demo.flip_y Demo.clip "default_agent"
      (Demo.env (Demo.car 0 0 false false false) 0 [true; true; false; false] 3)
    = Ok ((reward, info), s')
    /\ info !! "distance_error"
       = Some (VFloat (Demo.norm1
                         (vsub (0%Q, 0%Q) (Demo.flip_y (xy (1%Q, 0%Q, 0%Q))))))
    /\ info !! "distance_error_final" = info !! "distance_error".
Proof.
  apply (distance_error_is_final_after_last_valid
           Demo.norm1 Demo.flip_y Demo.clip
           (Demo.env (Demo.car 0 0 false false false) 0
              [true; true; false; false] 3)
           "default_agent" (Demo.car 0 0 false false false)
           {| lateral_dist := 0 |} (Demo.straight 1 100)
           (Demo.scenario [true; true; false; false]) 7
           {| st_position := Demo.ramp 4;
              st_valid := [true; true; false; false] |} 1%nat).
  - exact (demo_ready (Demo.car 0 0 false false false) 0
             [true; true; false; false] 3 eq_refl eq_refl).
  - reflexivity.
  - reflexivity.
  - apply lookup_singleton_eq.
  - apply lookup_singleton_eq.
  - split; [reflexivity|]. intros [|[|[|[|j]]]] Hj; try lia; discriminate.
  - reflexivity.
  - cbn. lia.
Defined.

(** X17. A vehicle that has not moved earns no dense reward: when its
    position equals its last position, the step_reward diagnostic is 0,
    whatever the driving reward weight and the lateral factor. *)
Theorem stationary_vehicle_has_zero_step_reward (norm : Point -> Q)
    (w2m : Point -> Point) (clip : Q -> Q -> Q -> Q) (s : Env)
    (vehicle_id : string) (v : Vehicle) (o : Observation) (cl : Lane)
    (data : Scenario) :
  agent_ready s vehicle_id v vehicle_id o ->
  current_lane_of v = Some cl ->
  expert_ready s vehicle_id data ->
  position v = last_position v ->
  exists (reward dense : Q) (info : gmap string value) (s' : Env),
    reward_function norm w2m clip vehicle_id s = Ok ((reward, info), s')
    /\ info !! "step_reward" = Some (VFloat dense)
    /\ (dense == 0)%Q.
Proof.
  intros Hr Hcl He Hpos.
  destruct (reward_function_run norm w2m clip s vehicle_id v o cl data Hr Hcl He)
    as (info & Hrun & L1 & _).
  eexists _, _, info, _. split; [exact Hrun|]. split; [exact L1|].
  rewrite Hpos. ring.
Qed.

Lemma stationary_vehicle_has_zero_step_reward_witness :
  exists (reward dense : Q) (info : gmap string value) (s' : Env),
    reward_function Demo.norm1 Demo.flip_y Demo.clip "default_agent"
      (Demo.env parked_car 0 [true] 1)
    = Ok ((reward, info), s')
    /\ info !! "step_reward" = Some (VFloat dense)
    /\ (dense == 0)%Q.
Proof.
  exact (stationary_vehicle_has_zero_step_reward
           Demo.norm1 Demo.flip_y Demo.clip
           (Demo.env parked_car 0 [true] 1) "default_agent" parked_car
           {| lateral_dist := 0 |} (Demo.straight 1 100) (Demo.scenario [true])
           (demo_ready parked_car 0 [true] 1 eq_refl eq_refl)
           eq_refl
           (demo_expert_ready parked_car 0 [true] 1 0
              demo_last_valid_0 ltac:(lia))
           eq_refl).
Defined.

(** X18. The progress diagnostics of the reward evaluation are consistent
    with each other and with the reward: route_completion is
    current_distance divided by track_length, and whenever it exceeds 0.95
    the reward is the success reward.  The car size is reported as
    [WIDTH, LENGTH], and dynamics_mode exactly when the vehicle has that
    attribute. *)
Theorem reward_progress_diagnostics (norm : Point -> Q)
    (w2m : Point -> Point) (clip : Q -> Q -> Q -> Q) (s : Env)
    (vehicle_id : string) (v : Vehicle) (o : Observation) (cl : Lane)
    (data : Scenario) :
  agent_ready s vehicle_id v vehicle_id o ->
  current_lane_of v = Some cl ->
  expert_ready s vehicle_id data ->
  exists (reward track_length current_distance route_completion : Q)
         (info : gmap string value) (s' : Env),
    reward_function norm w2m clip vehicle_id s = Ok ((reward, info), s')
    /\ info !! "track_length" = Some (VFloat track_length)
    /\ info !! "current_distance" = Some (VFloat current_distance)
    /\ info !! "route_completion" = Some (VFloat route_completion)
    /\ route_completion = (current_distance / track_length)%Q
    /\ ((95 # 100 < route_completion)%Q -> reward = success_reward (config s))
    /\ info !! "carsize" = Some (VList [WIDTH v; LENGTH v])
    /\ info !! "dynamics_mode" = VStr <$> _dynamics_mode v.
Proof.
  intros Hr Hcl ((g & Hg & Hdata) & Hstep & Htrack).
  destruct (reward_function_run_with norm w2m clip s vehicle_id v o cl data g
              Hr Hcl Hg Hdata) as [Hok _].
  match type of Hok with
  | forall info_e, expert_diagnostics _ _ ?d ?n ?x ?i ?s1 = _ -> _ =>
      destruct (expert_diagnostics_ok norm w2m d n x i s1 Hstep Htrack)
        as (info_e & He & Hframe)
  end.
  destruct (reward_function_run norm w2m clip s vehicle_id v o cl data Hr Hcl
              (conj (ex_intro _ g (conj Hg Hdata)) (conj Hstep Htrack)))
    as (info & Hrun & _ & L2 & L3 & L4).
  destruct (Hok _ He) as (reward & Hrun').
  rewrite Hrun in Hrun'. injection Hrun' as Hrw Hinfo.
  eexists _, _, _, _, info, _. split; [exact Hrun|].
  split; [exact L2|]. split; [exact L3|]. split; [exact L4|].
  split; [reflexivity|]. split.
  - intros H. apply Qltb_lt in H. unfold arrival_threshold_check. now rewrite H.
  - rewrite Hinfo. destruct (_dynamics_mode v); cbn [fmap option_fmap option_map];
      rewrite ?lookup_insert_eq, ?lookup_insert_ne by discriminate;
      rewrite !Hframe by discriminate;
      rewrite ?lookup_insert_ne by discriminate;
      (split; [apply lookup_insert_eq|]);
      reflexivity.
Qed.

Lemma reward_progress_diagnostics_witness :
  exists (reward track_length current_distance route_completion : Q)
         (info : gmap string value) (s' : Env),
    reward_function Demo.norm1 Demo.flip_y Demo.clip "default_agent"
      (Demo.env parked_car 0 [true] 1)
    = Ok ((reward, info), s')
    /\ info !! "track_length" = Some (VFloat track_length)
    /\ info !! "current_distance" = Some (VFloat current_distance)
    /\ info !! "route_completion" = Some (VFloat route_completion)
    /\ route_completion = (current_distance / track_length)%Q
    /\ ((95 # 100 < route_completion)%Q -> reward = 10%Q)
    /\ info !! "carsize" = Some (VList [2%Q; 4%Q])
    /\ info !! "dynamics_mode" = Some (VStr "dynamic").
Proof.
  exact (reward_progress_diagnostics Demo.norm1 Demo.flip_y Demo.clip
           (Demo.env parked_car 0 [true] 1) "default_agent" parked_car
           {| lateral_dist := 0 |} (Demo.straight 1 100) (Demo.scenario [true])
           (demo_ready parked_car 0 [true] 1 eq_refl eq_refl)
           eq_refl
           (demo_expert_ready parked_car 0 [true] 1 0
              demo_last_valid_0 ltac:(lia))).
Defined.

(** ** Seed selection over several episodes *)

Lemma _reset_global_seed_checked (randint : Z -> Z -> result Z) (s : Env)
    (force : option Z) (u : unit) (s' : Env) :
  _reset_global_seed randint force s = Ok (u, s') ->
  exists c : Z,
    in_window (config s) c = true /\ s' = set_global_seed (Some c) s.
Proof.
  unfold _reset_global_seed, bind, gets, ret, seed, modify, raise, lift,
    in_window.
  destruct force as [f|].
  - destruct (_ && _) eqn:E; [|discriminate]. intros [= _ <-]. eauto.
  - destruct (sequential_seed (config s)).
    + destruct (global_seed s) as [p|];
        destruct (_ <=? _); destruct (_ && _) eqn:E; try discriminate;
        intros [= _ <-]; eauto.
    + destruct (randint _ _) as [c|e]; [|discriminate].
      destruct (_ && _) eqn:E; [|discriminate]. intros [= _ <-]. eauto.
Qed.

Lemma sequential_next_in_window (cfg : Config) (p : Z) :
  in_window cfg p = true ->
  spec_sequential_seed cfg (Some p)
  = start_scenario_index cfg
    + (p - start_scenario_index cfg + 1) mod num_scenario cfg
  /\ in_window cfg (spec_sequential_seed cfg (Some p)) = true.
Proof.
  unfold in_window, spec_sequential_seed. intros H.
  apply andb_true_iff in H as [H1 H2].
  apply Z.leb_le in H1. apply Z.ltb_lt in H2.
  destruct (_ <=? p + 1) eqn:E.
  - apply Z.leb_le in E.
    replace (p - start_scenario_index cfg + 1) with (num_scenario cfg) by lia.
    rewrite Z_mod_same_full. split; [lia|]. apply andb_true_iff. lia.
  - apply Z.leb_gt in E. rewrite Z.mod_small by lia.
    split; [lia|]. apply andb_true_iff. lia.
Qed.

Lemma sequential_reset_step (randint : Z -> Z -> result Z) (s : Env) (p : Z) :
  sequential_seed (config s) = true ->
  in_window (config s) p = true ->
  global_seed s = Some p ->
  _reset_global_seed randint None s
  = Ok (tt, set_global_seed
              (Some (start_scenario_index (config s)
                     + (p - start_scenario_index (config s) + 1)
                       mod num_scenario (config s))) s).
Proof.
  intros Hseq Hw Hp.
  destruct (sequential_next_in_window (config s) p Hw) as [Hnext Hin].
  rewrite <- Hnext.
  unfold _reset_global_seed, bind, gets, ret, seed, modify, raise.
  rewrite Hseq, Hp. unfold spec_sequential_seed, in_window in *.
  destruct (_ <=? p + 1); now rewrite Hin.
Qed.

(** X19. Sequential selection cycles through the window: starting from a
    seed [p] of the window, [k] resets in a row all return, and leave the
    seed start + (p - start + k) mod num_scenario; in particular after
    num_scenario resets the seed is [p] again and the state is as it was. *)
Theorem sequential_resets_cycle (randint : Z -> Z -> result Z) (s : Env)
    (p : Z) :
  sequential_seed (config s) = true ->
  in_window (config s) p = true ->
  global_seed s = Some p ->
  (forall k : nat,
     sequential_resets randint k s
     = Ok (tt, set_global_seed
                 (Some (start_scenario_index (config s)
                        + (p - start_scenario_index (config s) + Z.of_nat k)
                          mod num_scenario (config s))) s))
  /\ sequential_resets randint (Z.to_nat (num_scenario (config s))) s
     = Ok (tt, s).
Proof.
  intros Hseq Hw Hp.
  assert (Hall : forall (k : nat) (s0 : Env) (p0 : Z),
             config s0 = config s ->
             in_window (config s) p0 = true ->
             global_seed s0 = Some p0 ->
             sequential_resets randint k s0
             = Ok (tt, set_global_seed
                         (Some (start_scenario_index (config s)
                                + (p0 - start_scenario_index (config s)
                                   + Z.of_nat k)
                                  mod num_scenario (config s))) s0)).
  { induction k as [|k IH]; intros s0 p0 Hc Hw0 Hp0.
    - cbn [sequential_resets]. unfold ret. f_equal. f_equal.
      unfold in_window in Hw0. apply andb_true_iff in Hw0 as [H1 H2].
      apply Z.leb_le in H1. apply Z.ltb_lt in H2.
      rewrite Z.add_0_r, Z.mod_small by lia.
      replace (start_scenario_index (config s)
               + (p0 - start_scenario_index (config s))) with p0 by lia.
      rewrite <- Hp0. now destruct s0.
    - cbn [sequential_resets].
      rewrite <- Hc in Hw0.
      rewrite (bind_ok _ _ _ _ _
                 (sequential_reset_step randint s0 p0
                    ltac:(now rewrite Hc) Hw0 Hp0)).
      rewrite Hc in *.
      destruct (sequential_next_in_window (config s) p0 Hw0) as [Hnext Hin].
      rewrite Hnext in Hin.
      match goal with |- sequential_resets randint k ?s1 = _ =>
        rewrite (IH s1 _ Hc Hin eq_refl) end.
      f_equal. f_equal. unfold set_global_seed; cbn. f_equal. f_equal. f_equal.
      replace (start_scenario_index (config s)
               + (p0 - start_scenario_index (config s) + 1)
                 mod num_scenario (config s)
               - start_scenario_index (config s) + Z.of_nat k)
        with ((p0 - start_scenario_index (config s) + 1)
                mod num_scenario (config s) + Z.of_nat k) by lia.
      rewrite Zplus_mod_idemp_l. f_equal. lia. }
  split.
  - intros k. now apply Hall.
  - rewrite (Hall _ s p eq_refl Hw Hp).
    unfold in_window in Hw. apply andb_true_iff in Hw as [H1 H2].
    apply Z.leb_le in H1. apply Z.ltb_lt in H2.
    rewrite Z2Nat.id by lia.
    rewrite <- (Z.mul_1_l (num_scenario (config s))) at 1.
    rewrite Z_mod_plus_full, Z.mod_small by lia.
    replace (start_scenario_index (config s)
             + (p - start_scenario_index (config s))) with p by lia.
    rewrite <- Hp. now destruct s.
Qed.

Lemma sequential_resets_cycle_witness :
  sequential_resets Demo.draw_low 2
    (Demo.env (Demo.car 50 0 false false false) 0 [true] 1)
  = Ok (tt, set_global_seed (Some 6)
              (Demo.env (Demo.car 50 0 false false false) 0 [true] 1))
  /\ sequential_resets Demo.draw_low 3
       (Demo.env (Demo.car 50 0 false false false) 0 [true] 1)
     = Ok (tt, Demo.env (Demo.car 50 0 false false false) 0 [true] 1).
Proof.
  destruct (sequential_resets_cycle Demo.draw_low
              (Demo.env (Demo.car 50 0 false false false) 0 [true] 1) 7
              eq_refl eq_refl eq_refl) as [Hk Hfull].
  split; [exact (Hk 2%nat) | exact Hfull].
Defined.

(** X20. With an empty window (num_scenario <= 0) no seed can be selected:
    forced, sequential or random, [_reset_global_seed] never returns. *)
Theorem empty_window_never_selects (randint : Z -> Z -> result Z) (s : Env)
    (force : option Z) :
  num_scenario (config s) <= 0 ->
  exists e : exn, _reset_global_seed randint force s = Raise e.
Proof.
  intros Hnum.
  destruct (_reset_global_seed randint force s) as [[u s']|e] eqn:E;
    [|now exists e].
  apply _reset_global_seed_checked in E as (c & Hw & _).
  unfold in_window in Hw. lia.
Qed.

Lemma empty_window_never_selects_witness :
  exists e : exn,
    _reset_global_seed Demo.draw_low (Some 5)
      (set_config
         {| start_scenario_index := 5; num_scenario := 0;
            sequential_seed := true;
            success_reward := 10; out_of_road_penalty := 10;
            crash_vehicle_penalty := 1; crash_object_penalty := 1;
            driving_reward := 1; use_lateral_reward := false;
            crash_vehicle_cost := 1; crash_object_cost := 1;
            out_of_road_cost := 1;
            out_of_route_done := false; crash_vehicle_done := false;
            relax_out_of_road_done := true; coordinate_transform := true |}
         (Demo.env (Demo.car 50 0 false false false) 0 [true] 1))
    = Raise e.
Proof.
  apply empty_window_never_selects. cbn. lia.
Defined.

(** X21. A forced seed does not wrap: forcing the seed just past the last
    one of the window, or the one just before the first, raises
    [AssertionError], whereas sequential selection from the last seed of
    the window wraps to the first. *)
Theorem forced_seed_does_not_wrap (randint : Z -> Z -> result Z) (s : Env) :
  sequential_seed (config s) = true ->
  0 < num_scenario (config s) ->
  global_seed s
  = Some (start_scenario_index (config s) + num_scenario (config s) - 1) ->
  _reset_global_seed randint
    (Some (start_scenario_index (config s) + num_scenario (config s))) s
  = Raise AssertionError
  /\ _reset_global_seed randint (Some (start_scenario_index (config s) - 1)) s
     = Raise AssertionError
  /\ _reset_global_seed randint None s
     = Ok (tt, set_global_seed (Some (start_scenario_index (config s))) s).
Proof.
  intros Hseq Hnum Hp.
  unfold _reset_global_seed, bind, gets, ret, seed, modify, raise.
  rewrite Hseq, Hp.
  repeat split.
  - replace (_ && _) with false; [reflexivity|].
    symmetry. apply andb_false_iff. lia.
  - replace (_ && _) with false; [reflexivity|].
    symmetry. apply andb_false_iff. lia.
  - replace (_ <=? _) with true by (symmetry; apply Z.leb_le; lia).
    replace (_ && _) with true; [reflexivity|].
    symmetry. apply andb_true_iff. lia.
Qed.

Lemma forced_seed_does_not_wrap_witness :
  _reset_global_seed Demo.draw_low (Some 8)
    (Demo.env (Demo.car 50 0 false false false) 0 [true] 1)
  = Raise AssertionError
  /\ _reset_global_seed Demo.draw_low (Some 4)
       (Demo.env (Demo.car 50 0 false false false) 0 [true] 1)
     = Raise AssertionError
  /\ _reset_global_seed Demo.draw_low None
       (Demo.env (Demo.car 50 0 false false false) 0 [true] 1)
     = Ok (tt, set_global_seed (Some 5)
                 (Demo.env (Demo.car 50 0 false false false) 0 [true] 1)).
Proof.
  exact (forced_seed_does_not_wrap Demo.draw_low
           (Demo.env (Demo.car 50 0 false false false) 0 [true] 1)
           eq_refl eq_refl eq_refl).
Defined.
